(** * CosmicPCAxisTagger: shallow embedding of
    larana/CosmicRemoval/CosmicPCAxisTagger_module.cc

    Floating-point quantities (float / double) are modelled by exact real
    numbers; comparisons [<] and [>] of the source become the boolean
    tests [Rltb] below.  An art exception (thrown by [FindManyP::at] or
    [std::vector::at]) is modelled by [None]. *)

From Stdlib Require Import Reals Lra Lia ZArith List Bool Permutation.
Import ListNotations.
Open Scope R_scope.

(** ** Numeric helpers *)

(** [a < b] on doubles. *)
Definition Rltb (a b : R) : bool := if Rlt_dec a b then true else false.

(** ** TVector3 *)

Record TVector3 := V3 { vX : R; vY : R; vZ : R }.

Definition vadd (a b : TVector3) : TVector3 := V3 (vX a + vX b) (vY a + vY b) (vZ a + vZ b).
Definition vsub (a b : TVector3) : TVector3 := V3 (vX a - vX b) (vY a - vY b) (vZ a - vZ b).
Definition vscale (k : R) (a : TVector3) : TVector3 := V3 (k * vX a) (k * vY a) (k * vZ a).
(** [TVector3::Dot] *)
Definition Dot (a b : TVector3) : R := vX a * vX b + vY a * vY b + vZ a * vZ b.

(** ** Data products *)

(** [anab::CosmicTagID_t] (the values used by this module). *)
Inductive CosmicTagID_t :=
| kNotTagged
| kOutsideDrift_Partial
| kGeometry_XX
| kGeometry_YY
| kGeometry_XY
| kGeometry_XZ
| kGeometry_YZ
| kGeometry_ZZ
| kGeometry_X
| kGeometry_Y
| kGeometry_Z.

(** [recob::PCAxis]: id, eigenvalues, eigenvectors (rows), average position. *)
Record PCAxis := mkPCAxis {
  getID : Z;
  eigenValue0 : R;
  eigenValue1 : R;
  eigenValue2 : R;
  eigenVector0 : TVector3;
  eigenVector1 : TVector3;
  eigenVector2 : TVector3;
  getAvePosition : TVector3
}.

(** [recob::Hit]: the two times read by the module. *)
Record Hit := mkHit {
  PeakTimeMinusRMS : R;
  PeakTimePlusRMS : R
}.

(** [recob::Cluster]: only its [ID()] is read. *)
Record Cluster := mkCluster { cluster_ID : Z }.

(** [recob::SpacePoint]: its [XYZ()]. *)
Definition SpacePoint := TVector3.

(** [recob::PFParticle]: opaque, only its position in the collection is used. *)
Definition PFParticle := nat.

(** [anab::CosmicTag(endPt1, endPt2, cosmicScore, tag_id)] *)
Record CosmicTag := mkCosmicTag {
  endPt1 : TVector3;
  endPt2 : TVector3;
  cosmicScore : R;
  tag_id : CosmicTagID_t
}.

(** Module parameters fixed in the constructor. *)
Record Config := mkConfig {
  fDetectorWidthTicks : Z;
  fTPCXBoundary : R;
  fTPCYBoundary : R;
  fTPCZBoundary : R;
  fDetHalfHeight : R;
  fDetWidth : R;
  fDetLength : R
}.

(** ** Timing check (lines 211-234) *)

(** Condition of line 227-228. *)
Definition out_of_time (w : Z) (hit : Hit) : bool :=
  Rltb (PeakTimeMinusRMS hit) (IZR w) || Rltb (2 * IZR w) (PeakTimePlusRMS hit).

(** The inner [for (hit : hitVec)] loop with its [break].  The state is
    [(isCosmic, tag_id)]; the second component lists the hits on which the
    loop body ran, in order. *)
Fixpoint hit_loop (w : Z) (st : Z * CosmicTagID_t) (hitVec : list Hit)
  : (Z * CosmicTagID_t) * list Hit :=
  match hitVec with
  | [] => (st, [])
  | hit :: rest =>
      if out_of_time w hit then ((1%Z, kOutsideDrift_Partial), [hit])
      else let '(st', seen) := hit_loop w st rest in (st', hit :: seen)
  end.

(** The outer [for (cluster : clusterVec)] loop; each cluster is given by
    the hits [clusterHitAssns.at(cluster->ID())]. *)
Fixpoint cluster_loop (w : Z) (st : Z * CosmicTagID_t) (hitVecs : list (list Hit))
  : (Z * CosmicTagID_t) * list Hit :=
  match hitVecs with
  | [] => (st, [])
  | hitVec :: rest =>
      let '(st1, seen1) := hit_loop w st hitVec in
      let '(st2, seen2) := cluster_loop w st1 rest in
      (st2, seen1 ++ seen2)
  end.

(** ** Extremal space points (lines 255-272) *)

(** The arc length [deltaPos.Dot(vertexDirection)] of line 261. *)
Definition arcLen (vertexPosition vertexDirection : TVector3) (p : SpacePoint) : R :=
  Dot (vsub p vertexPosition) vertexDirection.

(** The loop over [spacePointVec]; the state is
    [(arcLengthToFirstHit, pcAxisStart, arcLengthToLastHit, pcAxisEnd)]. *)
Fixpoint sp_loop (vertexPosition vertexDirection : TVector3)
  (first : R) (start : TVector3) (last : R) (end_ : TVector3)
  (spacePointVec : list SpacePoint) : R * TVector3 * R * TVector3 :=
  match spacePointVec with
  | [] => (first, start, last, end_)
  | sp :: rest =>
      let a := arcLen vertexPosition vertexDirection sp in
      let '(first', start') := if Rltb a first then (a, sp) else (first, start) in
      let '(last', end') := if Rltb last a then (a, sp) else (last, end_) in
      sp_loop vertexPosition vertexDirection first' start' last' end' rest
  end.

(** ** Boundary decision table (lines 287-354) *)

Definition nearX (cfg : Config) (p : TVector3) : bool :=
  Rltb (fDetWidth cfg - vX p) (fTPCXBoundary cfg) || Rltb (vX p) (fTPCXBoundary cfg).

Definition nearY (cfg : Config) (p : TVector3) : bool :=
  Rltb (fDetHalfHeight cfg - vY p) (fTPCYBoundary cfg)
  || Rltb (fDetHalfHeight cfg + vY p) (fTPCYBoundary cfg).

Definition nearZ (cfg : Config) (p : TVector3) : bool :=
  Rltb (fDetLength cfg - vZ p) (fTPCZBoundary cfg) || Rltb (vZ p) (fTPCZBoundary cfg).

(** The if/else-if chain of lines 327-354 on the flags
    [nBdX[0..1]], [nBdY[0..1]], [nBdZ[0..1]]. *)
Definition boundary_rules (nBdX0 nBdX1 nBdY0 nBdY1 nBdZ0 nBdZ1 : bool)
  (isCosmic : Z) (tag : CosmicTagID_t) : Z * CosmicTagID_t :=
  let exitEnd1 := nBdX0 || nBdY0 in
  let exitEnd2 := nBdX1 || nBdY1 in
  let exitEndZ1 := exitEnd1 && nBdZ1 in
  let exitEndZ2 := exitEnd1 && nBdZ0 in
  if (exitEnd1 && exitEnd2) || exitEndZ1 || exitEndZ2 then
    (2%Z,
     if nBdX0 && nBdX1 then kGeometry_XX
     else if nBdY0 && nBdY1 then kGeometry_YY
     else if (nBdX0 || nBdX1) && (nBdY0 || nBdY1) then kGeometry_XY
     else if (nBdX0 || nBdX1) && (nBdZ0 || nBdZ1) then kGeometry_XZ
     else kGeometry_YZ)
  else if nBdZ0 && nBdZ1 then (3%Z, kGeometry_ZZ)
  else if negb (Bool.eqb (nBdX0 || nBdY0 || nBdZ0) (nBdX1 || nBdY1 || nBdZ1)) then
    (4%Z,
     if nBdX0 || nBdX1 then kGeometry_X
     else if nBdY0 || nBdY1 then kGeometry_Y
     else if nBdZ0 || nBdZ1 then kGeometry_Z
     else tag)
  else (isCosmic, tag).

(** ** One PFParticle (lines 175-373) *)

(** [transRMS] of line 245-246 (the second eigenvalue is used twice). *)
Definition transRMS (pcAxis : PCAxis) : R :=
  sqrt (eigenValue1 pcAxis ^ 2 + eigenValue1 pcAxis ^ 2).

(** Axis-derived end points of lines 184-195. *)
Definition pcAxisStart0 (pcAxis : PCAxis) : TVector3 :=
  vsub (getAvePosition pcAxis) (vscale (3 * sqrt (eigenValue0 pcAxis)) (eigenVector0 pcAxis)).

Definition pcAxisEnd0 (pcAxis : PCAxis) : TVector3 :=
  vadd (getAvePosition pcAxis) (vscale (3 * sqrt (eigenValue0 pcAxis)) (eigenVector0 pcAxis)).

(** The end points found by the space-point loop started at
    [arcLengthToFirstHit = 9999.] and [arcLengthToLastHit = -9999.]. *)
Definition extent_points (pcAxis : PCAxis) (spacePointVec : list SpacePoint)
  : TVector3 * TVector3 :=
  let '(_, s, _, e) :=
    sp_loop (getAvePosition pcAxis) (eigenVector0 pcAxis)
      9999 (pcAxisStart0 pcAxis) (-9999) (pcAxisEnd0 pcAxis) spacePointVec in
  (s, e).

Record ObjResult := mkObjResult {
  res_isCosmic : Z;
  res_tag : CosmicTagID_t;
  res_start : TVector3;
  res_end : TVector3
}.

(** Classification of one PFParticle from its canonical axis, the hits of
    its clusters and its space points. *)
Definition classify (cfg : Config) (pcAxis : PCAxis) (hitVecs : list (list Hit))
  (spacePointVec : list SpacePoint) : ObjResult :=
  let eigenVal0 := sqrt (eigenValue0 pcAxis) in
  let pcAxisStart := pcAxisStart0 pcAxis in
  let pcAxisEnd := pcAxisEnd0 pcAxis in
  let '(isCosmic, tag) := fst (cluster_loop (fDetectorWidthTicks cfg) (0%Z, kNotTagged) hitVecs) in
  if Z.eqb isCosmic 0 && negb (match spacePointVec with [] => true | _ => false end) then
    if Rltb 0 eigenVal0 && Rltb 0 (transRMS pcAxis) then
      let '(s, e) := extent_points pcAxis spacePointVec in
      let '(isCosmic', tag') :=
        boundary_rules (nearX cfg s) (nearX cfg e) (nearY cfg s) (nearY cfg e)
          (nearZ cfg s) (nearZ cfg e) isCosmic tag in
      mkObjResult isCosmic' tag' s e
    else mkObjResult isCosmic tag pcAxisStart pcAxisEnd
  else mkObjResult isCosmic tag pcAxisStart pcAxisEnd.

(** Lines 367-373. *)
Definition cosmic_score (isCosmic : Z) : R :=
  let s := if Z.ltb 0 isCosmic then 1 else 0 in
  if Z.eqb isCosmic 3 then 4 / 10
  else if Z.eqb isCosmic 4 then 1 / 2
  else s.

Definition make_tag (r : ObjResult) : CosmicTag :=
  mkCosmicTag (res_start r) (res_end r) (cosmic_score (res_isCosmic r)) (res_tag r).

(** ** Axis selection (lines 167-173) *)

(** [if (size > 1 && front.getID() > back.getID()) std::reverse(...)] *)
Definition order_axes (pcAxisVec : list PCAxis) : list PCAxis :=
  match pcAxisVec with
  | [] => []
  | front :: _ =>
      if Nat.ltb 1 (length pcAxisVec) && Z.ltb (getID (last pcAxisVec front)) (getID front)
      then rev pcAxisVec else pcAxisVec
  end.

(** [pcAxisVec.front()] after the reordering. *)
Definition select_axis (pcAxisVec : list PCAxis) : option PCAxis :=
  hd_error (order_axes pcAxisVec).

(** ** Event (lines 101-390) *)

(** [art::FindManyP]: [None] when the association product was not found;
    [at(i)] rethrows the stored exception in that case and throws when [i]
    is out of range. *)
Definition FindManyP (A : Type) := option (list (list A)).

Definition fm_at {A : Type} (fm : FindManyP A) (i : nat) : option (list A) :=
  match fm with
  | None => None
  | Some l => nth_error l i
  end.

(** [clusterHitAssns.at(cluster->ID())]: the [ID_t] is converted to an index. *)
Definition fm_at_id {A : Type} (fm : FindManyP A) (id : Z) : option (list A) :=
  if Z.ltb id 0 then None else fm_at fm (Z.to_nat id).

(** The data products and associations read from the event. [None] for a
    handle means [!handle.isValid()]. *)
Record Event := mkEvent {
  pfParticleHandle : option (list PFParticle);
  clusterHandle : option (list Cluster);
  pcaxisHandle : option (list PCAxis);
  pfPartToPCAxisAssns : FindManyP PCAxis;
  spacePointAssnVec : FindManyP SpacePoint;
  clusterAssns : FindManyP Cluster;
  clusterHitAssns : FindManyP Hit
}.

(** The three products put into the event. *)
Record Output := mkOutput {
  cosmicTagPFParticleVector : list CosmicTag;
  assnOutCosmicTagPFParticle : list (nat * nat);   (** (PFParticle key, tag index) *)
  assnOutCosmicTagPCAxis : list (PCAxis * nat)     (** (axis, tag index) *)
}.

Definition empty_output : Output := mkOutput [] [] [].

Fixpoint map_option {A B : Type} (f : A -> option B) (l : list A) : option (list B) :=
  match l with
  | [] => Some []
  | x :: rest =>
      match f x with
      | None => None
      | Some y => match map_option f rest with None => None | Some ys => Some (y :: ys) end
      end
  end.

(** Body of the loop over PFParticles (lines 154-384). *)
Definition produce_one (cfg : Config) (evt : Event) (out : Output) (pfPartIdx : nat)
  : option Output :=
  match fm_at (pfPartToPCAxisAssns evt) pfPartIdx with
  | None => None
  | Some [] => Some out
  | Some pcAxisVec0 =>
      let pcAxisVec := order_axes pcAxisVec0 in
      match hd_error pcAxisVec with
      | None => Some out
      | Some pcAxis =>
          match fm_at (clusterAssns evt) pfPartIdx with
          | None => None
          | Some clusterVec =>
              match map_option (fun c => fm_at_id (clusterHitAssns evt) (cluster_ID c)) clusterVec with
              | None => None
              | Some hitVecs =>
                  match fm_at (spacePointAssnVec evt) pfPartIdx with
                  | None => None
                  | Some spacePointVec =>
                      let tag := make_tag (classify cfg pcAxis hitVecs spacePointVec) in
                      let k := length (cosmicTagPFParticleVector out) in
                      Some (mkOutput
                              (cosmicTagPFParticleVector out ++ [tag])
                              (assnOutCosmicTagPFParticle out ++ [(pfPartIdx, k)])
                              (assnOutCosmicTagPCAxis out ++ map (fun axis => (axis, k)) pcAxisVec))
                  end
              end
          end
      end
  end.

Fixpoint produce_loop (cfg : Config) (evt : Event) (out : Output) (idxs : list nat)
  : option Output :=
  match idxs with
  | [] => Some out
  | i :: rest =>
      match produce_one cfg evt out i with
      | None => None
      | Some out' => produce_loop cfg evt out' rest
      end
  end.

(** [CosmicPCAxisTagger::produce]; [None] is an exception escaping it. *)
Definition produce (cfg : Config) (evt : Event) : option Output :=
  match pfParticleHandle evt with
  | None => Some empty_output
  | Some pfParticles =>
      match pcaxisHandle evt, clusterHandle evt with
      | Some _, Some _ => produce_loop cfg evt empty_output (seq 0 (length pfParticles))
      | _, _ => Some empty_output
      end
  end.

(** ** Auxiliary definitions and concrete inputs *)

Definition timing_flag (cfg : Config) (hitVecs : list (list Hit)) : Z :=
  fst (fst (cluster_loop (fDetectorWidthTicks cfg) (0%Z, kNotTagged) hitVecs)).

Definition axis_unit : PCAxis :=
  mkPCAxis 1 1 1 1 (V3 1 0 0) (V3 0 1 0) (V3 0 0 1) (V3 0 0 0).

Definition cfg_example : Config := mkConfig 100 5 5 5 50 100 500.

(** The score of each tag kind as listed by the specification (§4.4). *)
Definition spec_score_of_tag (t : CosmicTagID_t) : R :=
  match t with
  | kNotTagged => 0
  | kGeometry_ZZ => 4 / 10
  | kGeometry_X | kGeometry_Y | kGeometry_Z => 1 / 2
  | kOutsideDrift_Partial | kGeometry_XX | kGeometry_YY | kGeometry_XY
  | kGeometry_XZ | kGeometry_YZ => 1
  end.

Definition hits_late : list (list Hit) := [[mkHit 0 0]].

Definition axis_mid : PCAxis :=
  mkPCAxis 1 1 1 1 (V3 1 0 0) (V3 0 1 0) (V3 0 0 1) (V3 50 0 250).

Definition points_xx : list SpacePoint := [V3 1 0 250; V3 99 0 250].

Definition ax5 : PCAxis := mkPCAxis 5 1 1 1 (V3 1 0 0) (V3 0 1 0) (V3 0 0 1) (V3 0 0 0).
Definition ax3 : PCAxis := mkPCAxis 3 1 1 1 (V3 0 1 0) (V3 1 0 0) (V3 0 0 1) (V3 0 0 0).

(** Two PFParticles: the first with the axes (5, 3), the second with none. *)
Definition evt_two : Event :=
  mkEvent (Some [0%nat; 1%nat]) (Some []) (Some [ax5; ax3])
    (Some [[ax5; ax3]; []]) (Some [[]; []]) (Some [[]; []]) (Some []).

Definition has_axis (axs : list (list PCAxis)) (i : nat) : bool :=
  match nth i axs [] with [] => false | _ => true end.

Definition axis_assns_of (axs : list (list PCAxis)) (ik : list (nat * nat))
  : list (PCAxis * nat) :=
  flat_map (fun '(i, k) => map (fun axis => (axis, k)) (order_axes (nth i axs []))) ik.

(** One PFParticle with one axis; the space-point association is missing. *)
Definition evt_no_sp : Event :=
  mkEvent (Some [0%nat]) (Some []) (Some [axis_unit])
    (Some [[axis_unit]]) None (Some [[]]) (Some []).

(** One PFParticle with one axis and one cluster whose ID (7) has no entry
    in the (empty) cluster-to-hit association. *)
Definition evt_bad_cluster : Event :=
  mkEvent (Some [0%nat]) (Some []) (Some [axis_unit])
    (Some [[axis_unit]]) (Some [[]]) (Some [[mkCluster 7]]) (Some []).

(** * Properties *)

(** ** Comparisons *)

Lemma Rltb_true (a b : R) : Rltb a b = true <-> a < b.
Proof. unfold Rltb; destruct (Rlt_dec a b); split; intros; auto; try discriminate; lra. Qed.

Lemma Rltb_false (a b : R) : Rltb a b = false <-> b <= a.
Proof. unfold Rltb; destruct (Rlt_dec a b); split; intros; auto; try discriminate; lra. Qed.

(** ** Timing loops *)

Lemma hit_loop_state (w : Z) (st : Z * CosmicTagID_t) (hitVec : list Hit) :
  fst (hit_loop w st hitVec) = st \/ fst (hit_loop w st hitVec) = (1%Z, kOutsideDrift_Partial).
Proof.
  induction hitVec as [|hit rest IH]; simpl; [now left|].
  destruct (out_of_time w hit); [now right|].
  destruct (hit_loop w st rest) as [st' seen]; exact IH.
Qed.

Lemma cluster_loop_state (w : Z) (st : Z * CosmicTagID_t) (hitVecs : list (list Hit)) :
  fst (cluster_loop w st hitVecs) = st
  \/ fst (cluster_loop w st hitVecs) = (1%Z, kOutsideDrift_Partial).
Proof.
  revert st; induction hitVecs as [|hv rest IH]; intros st; simpl; [now left|].
  pose proof (hit_loop_state w st hv) as Hh.
  destruct (hit_loop w st hv) as [st1 seen1] eqn:E1; simpl in Hh.
  specialize (IH st1).
  destruct (cluster_loop w st1 rest) as [st2 seen2]; simpl in *.
  destruct Hh as [-> | ->]; destruct IH; auto.
Qed.

(** The timing state of an object: [(0, kNotTagged)] or
    [(1, kOutsideDrift_Partial)]. *)
Lemma timing_state (w : Z) (hitVecs : list (list Hit)) :
  fst (cluster_loop w (0%Z, kNotTagged) hitVecs) = (0%Z, kNotTagged)
  \/ fst (cluster_loop w (0%Z, kNotTagged) hitVecs) = (1%Z, kOutsideDrift_Partial).
Proof. apply cluster_loop_state. Qed.

(** ** Square roots of the eigenvalues *)

Lemma sqrt_pos_iff (x : R) : 0 < sqrt x <-> 0 < x.
Proof.
  split; intros H.
  - destruct (Rlt_le_dec 0 x) as [Hx|Hx]; auto.
    rewrite sqrt_neg_0 in H by exact Hx; lra.
  - now apply sqrt_lt_R0.
Qed.

(** ** Unfolding [classify] *)

(** The projector branch does not run: the timing state and the
    axis-derived end points are kept. *)
Lemma classify_skip (cfg : Config) (pcAxis : PCAxis) (hitVecs : list (list Hit))
  (spacePointVec : list SpacePoint) :
  (timing_flag cfg hitVecs <> 0%Z \/ spacePointVec = []
   \/ eigenValue0 pcAxis <= 0 \/ transRMS pcAxis <= 0) ->
  classify cfg pcAxis hitVecs spacePointVec =
  mkObjResult (fst (fst (cluster_loop (fDetectorWidthTicks cfg) (0%Z, kNotTagged) hitVecs)))
    (snd (fst (cluster_loop (fDetectorWidthTicks cfg) (0%Z, kNotTagged) hitVecs)))
    (pcAxisStart0 pcAxis) (pcAxisEnd0 pcAxis).
Proof.
  unfold timing_flag, classify; intros H.
  destruct (fst (cluster_loop (fDetectorWidthTicks cfg) (0%Z, kNotTagged) hitVecs))
    as [isCosmic tag]; simpl in *.
  destruct (Z.eqb_spec isCosmic 0) as [Hc|Hc]; simpl; [|reflexivity].
  destruct spacePointVec as [|sp rest]; simpl; [reflexivity|].
  destruct (Rltb 0 (sqrt (eigenValue0 pcAxis))) eqn:E0; simpl; [|reflexivity].
  destruct (Rltb 0 (transRMS pcAxis)) eqn:E1; simpl; [|reflexivity].
  exfalso; apply Rltb_true in E0, E1; apply (proj1 (sqrt_pos_iff _)) in E0.
  destruct H as [H|[H|[H|H]]]; [congruence|discriminate|lra|lra].
Qed.

(** The projector branch runs: the boundary rules decide on the
    extremal space points. *)
Lemma classify_run (cfg : Config) (pcAxis : PCAxis) (hitVecs : list (list Hit))
  (spacePointVec : list SpacePoint) :
  timing_flag cfg hitVecs = 0%Z -> spacePointVec <> [] ->
  0 < eigenValue0 pcAxis -> 0 < transRMS pcAxis ->
  let '(s, e) := extent_points pcAxis spacePointVec in
  classify cfg pcAxis hitVecs spacePointVec =
  let '(isCosmic', tag') :=
    boundary_rules (nearX cfg s) (nearX cfg e) (nearY cfg s) (nearY cfg e)
      (nearZ cfg s) (nearZ cfg e) 0%Z kNotTagged in
  mkObjResult isCosmic' tag' s e.
Proof.
  unfold timing_flag, classify; intros Hf Hsp He0 Ht.
  destruct (timing_state (fDetectorWidthTicks cfg) hitVecs) as [Hs|Hs];
    rewrite Hs in *; simpl in Hf; [|discriminate].
  simpl.
  destruct spacePointVec as [|sp rest]; [congruence|simpl].
  apply sqrt_pos_iff, Rltb_true in He0; apply Rltb_true in Ht.
  rewrite He0, Ht; simpl.
  destruct (extent_points pcAxis (sp :: rest)); reflexivity.
Qed.

(** ** Claim C10 *)

(** C10: when the projector branch does not run (timing flag set, no space
    points, [e0 <= 0] or [t <= 0]), the emitted end points are the
    axis-derived [mean - 3 sqrt(e0) direction] and
    [mean + 3 sqrt(e0) direction]. *)
Theorem C10_fallback_endpoints (cfg : Config) (pcAxis : PCAxis)
  (hitVecs : list (list Hit)) (spacePointVec : list SpacePoint) :
  (timing_flag cfg hitVecs <> 0%Z \/ spacePointVec = []
   \/ eigenValue0 pcAxis <= 0 \/ transRMS pcAxis <= 0) ->
  let tag := make_tag (classify cfg pcAxis hitVecs spacePointVec) in
  endPt1 tag = vsub (getAvePosition pcAxis)
                 (vscale (3 * sqrt (eigenValue0 pcAxis)) (eigenVector0 pcAxis))
  /\ endPt2 tag = vadd (getAvePosition pcAxis)
                    (vscale (3 * sqrt (eigenValue0 pcAxis)) (eigenVector0 pcAxis)).
Proof.
  intros H; simpl; rewrite (classify_skip cfg pcAxis hitVecs spacePointVec H).
  split; reflexivity.
Qed.

(** ** The space-point loop *)

Section SpLoop.
Variables vertexPosition vertexDirection : TVector3.
Local Abbreviation arc := (arcLen vertexPosition vertexDirection).

Lemma Exists_or_Forall_lt (t : list SpacePoint) (b : R) :
  Exists (fun q => arc q < b) t \/ Forall (fun q => b <= arc q) t.
Proof.
  destruct (Exists_dec (fun q => arc q < b) t (fun q => Rlt_dec (arc q) b)) as [H|H]; [now left|].
  right; apply Forall_Exists_neg in H; eapply Forall_impl; [|exact H].
  intros q Hq; simpl in Hq; lra.
Qed.

Lemma Exists_or_Forall_gt (t : list SpacePoint) (b : R) :
  Exists (fun q => b < arc q) t \/ Forall (fun q => arc q <= b) t.
Proof.
  destruct (Exists_dec (fun q => b < arc q) t (fun q => Rlt_dec b (arc q))) as [H|H]; [now left|].
  right; apply Forall_Exists_neg in H; eapply Forall_impl; [|exact H].
  intros q Hq; simpl in Hq; lra.
Qed.

(** The start point: kept when no arc length is below the initial bound,
    otherwise the earliest point of minimal arc length. *)
Lemma sp_loop_first (sps : list SpacePoint) :
  forall f0 s0 l0 e0 f s l e,
  sp_loop vertexPosition vertexDirection f0 s0 l0 e0 sps = (f, s, l, e) ->
  (Forall (fun q => f0 <= arc q) sps -> f = f0 /\ s = s0)
  /\ (Exists (fun q => arc q < f0) sps ->
      f = arc s /\ arc s < f0
      /\ exists l1 l2, sps = l1 ++ s :: l2
         /\ Forall (fun q => arc s < arc q) l1 /\ Forall (fun q => arc s <= arc q) sps).
Proof.
  induction sps as [|p t IH]; intros f0 s0 l0 e0 f s l e Heq; simpl in Heq.
  - injection Heq as -> -> -> ->; split; [now split|intros H; inversion H].
  - destruct (Rltb (arc p) f0) eqn:Ef;
      [apply Rltb_true in Ef | apply Rltb_false in Ef];
      destruct (Rltb l0 (arc p)); apply IH in Heq as [HA HB].
    1, 2: split;
      [ intros HF; inversion HF; subst; lra
      | intros _; destruct (Exists_or_Forall_lt t (arc p)) as [HE|HF];
        [ destruct (HB HE) as (Hf & Hlt & l1 & l2 & -> & H1 & H2);
          split; [exact Hf|split; [lra|]];
          exists (p :: l1), l2; split; [reflexivity|];
          split; constructor; auto; lra
        | destruct (HA HF) as [-> ->]; split; [reflexivity|split; [exact Ef|]];
          exists [], t; split; [reflexivity|split; [constructor|]];
          constructor; [lra|exact HF] ] ].
    all: split;
      [ intros HF; inversion HF; subst; apply HA; assumption
      | intros HE; inversion HE as [? ? Hp|? ? Ht]; subst; [lra|];
        destruct (HB Ht) as (Hf & Hlt & l1 & l2 & -> & H1 & H2);
        split; [exact Hf|split; [exact Hlt|]];
        exists (p :: l1), l2; split; [reflexivity|];
        split; constructor; auto; lra ].
Qed.

(** The end point, symmetrically: the earliest point of maximal arc length. *)
Lemma sp_loop_last (sps : list SpacePoint) :
  forall f0 s0 l0 e0 f s l e,
  sp_loop vertexPosition vertexDirection f0 s0 l0 e0 sps = (f, s, l, e) ->
  (Forall (fun q => arc q <= l0) sps -> l = l0 /\ e = e0)
  /\ (Exists (fun q => l0 < arc q) sps ->
      l = arc e /\ l0 < arc e
      /\ exists l1 l2, sps = l1 ++ e :: l2
         /\ Forall (fun q => arc q < arc e) l1 /\ Forall (fun q => arc q <= arc e) sps).
Proof.
  induction sps as [|p t IH]; intros f0 s0 l0 e0 f s l e Heq; simpl in Heq.
  - injection Heq as -> -> -> ->; split; [now split|intros H; inversion H].
  - destruct (Rltb l0 (arc p)) eqn:El;
      [apply Rltb_true in El | apply Rltb_false in El];
      destruct (Rltb (arc p) f0); apply IH in Heq as [HA HB].
    1, 2: split;
      [ intros HF; inversion HF; subst; lra
      | intros _; destruct (Exists_or_Forall_gt t (arc p)) as [HE|HF];
        [ destruct (HB HE) as (Hl & Hlt & l1 & l2 & -> & H1 & H2);
          split; [exact Hl|split; [lra|]];
          exists (p :: l1), l2; split; [reflexivity|];
          split; constructor; auto; lra
        | destruct (HA HF) as [-> ->]; split; [reflexivity|split; [exact El|]];
          exists [], t; split; [reflexivity|split; [constructor|]];
          constructor; [lra|exact HF] ] ].
    all: split;
      [ intros HF; inversion HF; subst; apply HA; assumption
      | intros HE; inversion HE as [? ? Hp|? ? Ht]; subst; [lra|];
        destruct (HB Ht) as (Hl & Hlt & l1 & l2 & -> & H1 & H2);
        split; [exact Hl|split; [exact Hlt|]];
        exists (p :: l1), l2; split; [reflexivity|];
        split; constructor; auto; lra ].
Qed.

End SpLoop.

Lemma classify_run_points (cfg : Config) (pcAxis : PCAxis) (hitVecs : list (list Hit))
  (spacePointVec : list SpacePoint) :
  timing_flag cfg hitVecs = 0%Z -> spacePointVec <> [] ->
  0 < eigenValue0 pcAxis -> 0 < transRMS pcAxis ->
  res_start (classify cfg pcAxis hitVecs spacePointVec) = fst (extent_points pcAxis spacePointVec)
  /\ res_end (classify cfg pcAxis hitVecs spacePointVec) = snd (extent_points pcAxis spacePointVec).
Proof.
  intros Hf Hsp He0 Ht.
  pose proof (classify_run cfg pcAxis hitVecs spacePointVec Hf Hsp He0 Ht) as H.
  destruct (extent_points pcAxis spacePointVec) as [s e].
  destruct (boundary_rules _ _ _ _ _ _ _ _) as [ic tg].
  rewrite H; split; reflexivity.
Qed.

Lemma extent_points_spec (pcAxis : PCAxis) (spacePointVec : list SpacePoint) :
  let arc := arcLen (getAvePosition pcAxis) (eigenVector0 pcAxis) in
  let '(s, e) := extent_points pcAxis spacePointVec in
  (Forall (fun q => 9999 <= arc q) spacePointVec -> s = pcAxisStart0 pcAxis)
  /\ (Exists (fun q => arc q < 9999) spacePointVec ->
      exists l1 l2, spacePointVec = l1 ++ s :: l2
        /\ Forall (fun q => arc s < arc q) l1 /\ Forall (fun q => arc s <= arc q) spacePointVec)
  /\ (Forall (fun q => arc q <= -9999) spacePointVec -> e = pcAxisEnd0 pcAxis)
  /\ (Exists (fun q => -9999 < arc q) spacePointVec ->
      exists l1 l2, spacePointVec = l1 ++ e :: l2
        /\ Forall (fun q => arc q < arc e) l1 /\ Forall (fun q => arc q <= arc e) spacePointVec).
Proof.
  unfold extent_points; simpl.
  destruct (sp_loop _ _ 9999 _ (-9999) _ spacePointVec) as [[[f s] l] e] eqn:Heq.
  destruct (sp_loop_first _ _ _ _ _ _ _ _ _ _ _ Heq) as [HA HB].
  destruct (sp_loop_last _ _ _ _ _ _ _ _ _ _ _ Heq) as [HC HD].
  repeat split.
  - intros H; apply HA; exact H.
  - intros H; destruct (HB H) as (_ & _ & HH); exact HH.
  - intros H; apply HC; exact H.
  - intros H; destruct (HD H) as (_ & _ & HH); exact HH.
Qed.

(** Deciding the [Rltb] tests of a concrete goal. *)
Ltac decide_Rltb :=
  repeat match goal with
  | |- context [Rltb ?a ?b] =>
      let E := fresh "E" in
      destruct (Rltb a b) eqn:E; [apply Rltb_true in E | apply Rltb_false in E];
      simpl in E; try lra
  | H : context [Rltb ?a ?b] |- _ =>
      let E := fresh "E" in
      destruct (Rltb a b) eqn:E; [apply Rltb_true in E | apply Rltb_false in E];
      simpl in E; try lra
  end.

(** ** Claim C3 *)

(** C3: with the timing flag clear, space points present, [e0 > 0] and
    [t > 0], if every space point has arc length [>= 9999] the start point
    stays [mean - 3 sqrt(e0) direction], and if every one has arc length
    [<= -9999] the end point stays [mean + 3 sqrt(e0) direction]. *)
Theorem C3_sentinel_keeps_fallback (cfg : Config) (pcAxis : PCAxis)
  (hitVecs : list (list Hit)) (spacePointVec : list SpacePoint) :
  timing_flag cfg hitVecs = 0%Z -> spacePointVec <> [] ->
  0 < eigenValue0 pcAxis -> 0 < transRMS pcAxis ->
  let tag := make_tag (classify cfg pcAxis hitVecs spacePointVec) in
  let arc := arcLen (getAvePosition pcAxis) (eigenVector0 pcAxis) in
  ((forall q, In q spacePointVec -> 9999 <= arc q) ->
   endPt1 tag = vsub (getAvePosition pcAxis)
                  (vscale (3 * sqrt (eigenValue0 pcAxis)) (eigenVector0 pcAxis)))
  /\ ((forall q, In q spacePointVec -> arc q <= -9999) ->
      endPt2 tag = vadd (getAvePosition pcAxis)
                     (vscale (3 * sqrt (eigenValue0 pcAxis)) (eigenVector0 pcAxis))).
Proof.
  intros Hf Hsp He0 Ht tag arc; subst tag; simpl.
  destruct (classify_run_points cfg pcAxis hitVecs spacePointVec Hf Hsp He0 Ht) as [-> ->].
  pose proof (extent_points_spec pcAxis spacePointVec) as H; simpl in H.
  destruct (extent_points pcAxis spacePointVec) as [s e]; simpl.
  destruct H as (HA & _ & HC & _).
  split; intros Hall; [apply HA | apply HC]; apply Forall_forall; exact Hall.
Qed.

Lemma transRMS_axis_unit : 0 < transRMS axis_unit.
Proof. unfold transRMS; simpl; apply sqrt_lt_R0; lra. Qed.

Lemma C3_sentinel_keeps_fallback_witness :
  timing_flag cfg_example [] = 0%Z /\ [V3 10000 0 0] <> []
  /\ 0 < eigenValue0 axis_unit /\ 0 < transRMS axis_unit
  /\ endPt1 (make_tag (classify cfg_example axis_unit [] [V3 10000 0 0]))
     = vsub (getAvePosition axis_unit)
         (vscale (3 * sqrt (eigenValue0 axis_unit)) (eigenVector0 axis_unit)).
Proof.
  split; [reflexivity|split; [discriminate|split; [simpl; lra|split; [exact transRMS_axis_unit|]]]].
  apply (C3_sentinel_keeps_fallback cfg_example axis_unit [] [V3 10000 0 0]);
    [reflexivity | discriminate | simpl; lra | exact transRMS_axis_unit |].
  intros q [<-|[]]; unfold arcLen, Dot, vsub; simpl; lra.
Defined.

(** ** Claim C2 *)

(** C2 (as amended): with the timing flag clear, space points present,
    [e0 > 0] and [t > 0], when some space point has arc length below 9999
    the start point is the earliest space point of minimal arc length, and
    when some space point has arc length above -9999 the end point is the
    earliest space point of maximal arc length. *)
Theorem C2_extremal_points (cfg : Config) (pcAxis : PCAxis)
  (hitVecs : list (list Hit)) (spacePointVec : list SpacePoint) :
  timing_flag cfg hitVecs = 0%Z -> spacePointVec <> [] ->
  0 < eigenValue0 pcAxis -> 0 < transRMS pcAxis ->
  let tag := make_tag (classify cfg pcAxis hitVecs spacePointVec) in
  let arc := arcLen (getAvePosition pcAxis) (eigenVector0 pcAxis) in
  ((exists q, In q spacePointVec /\ arc q < 9999) ->
   exists l1 l2, spacePointVec = l1 ++ endPt1 tag :: l2
     /\ (forall q, In q l1 -> arc (endPt1 tag) < arc q)
     /\ (forall q, In q spacePointVec -> arc (endPt1 tag) <= arc q))
  /\ ((exists q, In q spacePointVec /\ -9999 < arc q) ->
      exists l1 l2, spacePointVec = l1 ++ endPt2 tag :: l2
        /\ (forall q, In q l1 -> arc q < arc (endPt2 tag))
        /\ (forall q, In q spacePointVec -> arc q <= arc (endPt2 tag))).
Proof.
  intros Hf Hsp He0 Ht tag arc; subst tag; simpl.
  destruct (classify_run_points cfg pcAxis hitVecs spacePointVec Hf Hsp He0 Ht) as [-> ->].
  pose proof (extent_points_spec pcAxis spacePointVec) as H; simpl in H.
  destruct (extent_points pcAxis spacePointVec) as [s e]; simpl.
  destruct H as (_ & HB & _ & HD).
  split; intros Hex.
  - destruct (HB (proj2 (Exists_exists _ _) Hex)) as (l1 & l2 & Heq & H1 & H2).
    exists l1, l2; split; [exact Heq|split; apply Forall_forall; assumption].
  - destruct (HD (proj2 (Exists_exists _ _) Hex)) as (l1 & l2 & Heq & H1 & H2).
    exists l1, l2; split; [exact Heq|split; apply Forall_forall; assumption].
Qed.

Lemma C2_extremal_points_witness :
  timing_flag cfg_example [] = 0%Z /\ [V3 10 0 0; V3 (-10) 0 0] <> []
  /\ 0 < eigenValue0 axis_unit /\ 0 < transRMS axis_unit
  /\ exists l1 l2,
       [V3 10 0 0; V3 (-10) 0 0]
       = l1 ++ endPt1 (make_tag (classify cfg_example axis_unit [] [V3 10 0 0; V3 (-10) 0 0])) :: l2.
Proof.
  split; [reflexivity|split; [discriminate|split; [simpl; lra|split; [exact transRMS_axis_unit|]]]].
  destruct (C2_extremal_points cfg_example axis_unit [] [V3 10 0 0; V3 (-10) 0 0])
    as [HS _]; [reflexivity | discriminate | simpl; lra | exact transRMS_axis_unit |].
  destruct HS as (l1 & l2 & Heq & _).
  - exists (V3 10 0 0); split; [left; reflexivity|unfold arcLen, Dot, vsub; simpl; lra].
  - exists l1, l2; exact Heq.
Defined.

(** C2 as stated fails: a single space point at arc length 10000 is not
    taken as the start point; the axis-derived point is kept. *)
Lemma C2_counterexample :
  ~ (forall cfg pcAxis hitVecs spacePointVec,
       timing_flag cfg hitVecs = 0%Z -> spacePointVec <> [] ->
       0 < eigenValue0 pcAxis -> 0 < transRMS pcAxis ->
       In (endPt1 (make_tag (classify cfg pcAxis hitVecs spacePointVec))) spacePointVec).
Proof.
  intros H.
  specialize (H cfg_example axis_unit [] [V3 10000 0 0] eq_refl ltac:(discriminate)
                ltac:(simpl; lra) transRMS_axis_unit).
  destruct (classify_run_points cfg_example axis_unit [] [V3 10000 0 0]) as [Hs _];
    [reflexivity | discriminate | simpl; lra | exact transRMS_axis_unit |].
  simpl in H; rewrite Hs in H.
  unfold extent_points, pcAxisStart0, pcAxisEnd0 in H; simpl in H.
  unfold arcLen, Dot, vsub in H; simpl in H.
  decide_Rltb; simpl in H; destruct H as [H|[]];
    injection H as Hx _ _; rewrite sqrt_1 in Hx; lra.
Qed.

(** ** Claim C4 *)

(** C4: for an object reaching the boundary classifier, rule 1 fires (the
    result is cosmic level 2) exactly when
    [(exit(start) && exit(end)) || (exit(start) && nearZ(end))
     || (exit(start) && nearZ(start))], with [exit p = nearX p || nearY p];
    it then gives score 1 and the tag kind of the first matching case
    XX, YY, XY, XZ, otherwise YZ. *)
Theorem C4_rule1 (cfg : Config) (pcAxis : PCAxis)
  (hitVecs : list (list Hit)) (spacePointVec : list SpacePoint) :
  timing_flag cfg hitVecs = 0%Z -> spacePointVec <> [] ->
  0 < eigenValue0 pcAxis -> 0 < transRMS pcAxis ->
  let r := classify cfg pcAxis hitVecs spacePointVec in
  let s := res_start r in
  let e := res_end r in
  let rule1 :=
    ((nearX cfg s || nearY cfg s) && (nearX cfg e || nearY cfg e))
    || ((nearX cfg s || nearY cfg s) && nearZ cfg e)
    || ((nearX cfg s || nearY cfg s) && nearZ cfg s) in
  (res_isCosmic r = 2%Z <-> rule1 = true)
  /\ (rule1 = true ->
      cosmicScore (make_tag r) = 1
      /\ tag_id (make_tag r) =
         if nearX cfg s && nearX cfg e then kGeometry_XX
         else if nearY cfg s && nearY cfg e then kGeometry_YY
         else if (nearX cfg s || nearX cfg e) && (nearY cfg s || nearY cfg e) then kGeometry_XY
         else if (nearX cfg s || nearX cfg e) && (nearZ cfg s || nearZ cfg e) then kGeometry_XZ
         else kGeometry_YZ).
Proof.
  intros Hf Hsp He0 Ht r s e rule1; subst r s e rule1.
  pose proof (classify_run cfg pcAxis hitVecs spacePointVec Hf Hsp He0 Ht) as H.
  destruct (extent_points pcAxis spacePointVec) as [s e].
  rewrite H; destruct (boundary_rules _ _ _ _ _ _ _ _) as [ic tg] eqn:Eb.
  cbn [res_start res_end res_isCosmic res_tag make_tag cosmicScore tag_id].
  unfold boundary_rules in Eb.
  destruct (nearX cfg s), (nearX cfg e), (nearY cfg s), (nearY cfg e),
    (nearZ cfg s), (nearZ cfg e); simpl in Eb; injection Eb as <- <-;
    simpl; (split; [split; intros; first [reflexivity | discriminate] | intros; first [discriminate | split; reflexivity]]).
Qed.

(** ** Scores *)

Lemma classify_score (cfg : Config) (pcAxis : PCAxis) (hitVecs : list (list Hit))
  (spacePointVec : list SpacePoint) :
  let r := classify cfg pcAxis hitVecs spacePointVec in
  cosmic_score (res_isCosmic r) = spec_score_of_tag (res_tag r).
Proof.
  intros r; subst r.
  destruct (Z.eq_dec (timing_flag cfg hitVecs) 0) as [Hf|Hf].
  2:{ rewrite classify_skip by (left; exact Hf); simpl.
      unfold timing_flag in Hf.
      destruct (timing_state (fDetectorWidthTicks cfg) hitVecs) as [Hs|Hs];
        rewrite Hs in *; simpl in *; [congruence|reflexivity]. }
  destruct spacePointVec as [|sp rest].
  { rewrite classify_skip by (right; left; reflexivity); simpl.
    unfold timing_flag in Hf.
    destruct (timing_state (fDetectorWidthTicks cfg) hitVecs) as [Hs|Hs];
      rewrite Hs in *; simpl in *; [reflexivity|discriminate]. }
  destruct (Rle_lt_dec (eigenValue0 pcAxis) 0) as [He|He];
    [|destruct (Rle_lt_dec (transRMS pcAxis) 0) as [Ht|Ht]].
  1, 2: rewrite classify_skip by tauto; simpl;
    unfold timing_flag in Hf;
    destruct (timing_state (fDetectorWidthTicks cfg) hitVecs) as [Hs|Hs];
      rewrite Hs in *; simpl in *; [reflexivity|discriminate].
  pose proof (classify_run cfg pcAxis hitVecs (sp :: rest) Hf ltac:(discriminate) He Ht) as H.
  destruct (extent_points pcAxis (sp :: rest)) as [s e].
  rewrite H; unfold boundary_rules.
  destruct (nearX cfg s), (nearX cfg e), (nearY cfg s), (nearY cfg e),
    (nearZ cfg s), (nearZ cfg e); reflexivity.
Qed.

(** ** Claim C1 *)

(** C1 (as amended): when the timing filter set cosmic level 1, the
    boundary rules are not evaluated; the emitted tag kind is
    [kOutsideDrift_Partial] with score 1. *)
Theorem C1_out_of_time_tag (cfg : Config) (pcAxis : PCAxis)
  (hitVecs : list (list Hit)) (spacePointVec : list SpacePoint) :
  timing_flag cfg hitVecs = 1%Z ->
  tag_id (make_tag (classify cfg pcAxis hitVecs spacePointVec)) = kOutsideDrift_Partial
  /\ cosmicScore (make_tag (classify cfg pcAxis hitVecs spacePointVec)) = 1.
Proof.
  intros Hf.
  rewrite classify_skip by (left; rewrite Hf; discriminate).
  unfold timing_flag in Hf.
  destruct (timing_state (fDetectorWidthTicks cfg) hitVecs) as [Hs|Hs];
    rewrite Hs in *; simpl in *; [discriminate|split; reflexivity].
Qed.

Lemma timing_flag_hits_late : timing_flag cfg_example hits_late = 1%Z.
Proof. unfold timing_flag, hits_late; simpl; unfold out_of_time; simpl; decide_Rltb; reflexivity. Qed.

Lemma C1_out_of_time_tag_witness :
  timing_flag cfg_example hits_late = 1%Z
  /\ tag_id (make_tag (classify cfg_example axis_mid hits_late points_xx)) = kOutsideDrift_Partial.
Proof.
  split; [exact timing_flag_hits_late|].
  apply (C1_out_of_time_tag cfg_example axis_mid hits_late points_xx timing_flag_hits_late).
Defined.

(** C1 as stated fails: an out-of-time object whose extremal space points
    lie at both x faces would get [kGeometry_XX] from rule 1, but is
    tagged [kOutsideDrift_Partial]. *)
Lemma C1_counterexample :
  ~ (forall cfg pcAxis hitVecs spacePointVec,
       timing_flag cfg hitVecs = 1%Z -> spacePointVec <> [] ->
       0 < eigenValue0 pcAxis -> 0 < transRMS pcAxis ->
       let '(s, e) := extent_points pcAxis spacePointVec in
       tag_id (make_tag (classify cfg pcAxis hitVecs spacePointVec)) =
       snd (boundary_rules (nearX cfg s) (nearX cfg e) (nearY cfg s) (nearY cfg e)
              (nearZ cfg s) (nearZ cfg e) 1%Z kOutsideDrift_Partial)).
Proof.
  intros H.
  specialize (H cfg_example axis_mid hits_late points_xx timing_flag_hits_late
                ltac:(discriminate) ltac:(simpl; lra) ltac:(unfold transRMS; simpl; apply sqrt_lt_R0; lra)).
  rewrite classify_skip in H by (left; rewrite timing_flag_hits_late; discriminate).
  unfold extent_points, points_xx, pcAxisStart0, pcAxisEnd0 in H; simpl in H.
  unfold arcLen, Dot, vsub in H; simpl in H.
  decide_Rltb.
  unfold out_of_time, boundary_rules, nearX, nearY, nearZ in H; simpl in H.
  decide_Rltb; discriminate.
Qed.

(** ** Claim C5 *)

Lemma hit_loop_seen_indep (w : Z) (st1 st2 : Z * CosmicTagID_t) (hitVec : list Hit) :
  snd (hit_loop w st1 hitVec) = snd (hit_loop w st2 hitVec).
Proof.
  induction hitVec as [|hit rest IH]; simpl; [reflexivity|].
  destruct (out_of_time w hit); [reflexivity|].
  destruct (hit_loop w st1 rest), (hit_loop w st2 rest); simpl in *; congruence.
Qed.

Lemma cluster_loop_seen_indep (w : Z) (hitVecs : list (list Hit)) :
  forall st1 st2, snd (cluster_loop w st1 hitVecs) = snd (cluster_loop w st2 hitVecs).
Proof.
  induction hitVecs as [|hv rest IH]; intros st1 st2; simpl; [reflexivity|].
  pose proof (hit_loop_seen_indep w st1 st2 hv) as Hh.
  destruct (hit_loop w st1 hv) as [a1 s1], (hit_loop w st2 hv) as [a2 s2]; simpl in Hh.
  specialize (IH a1 a2).
  destruct (cluster_loop w a1 rest), (cluster_loop w a2 rest); simpl in *; congruence.
Qed.

Lemma cluster_loop_sticky (w : Z) (hitVecs : list (list Hit)) :
  fst (cluster_loop w (1%Z, kOutsideDrift_Partial) hitVecs) = (1%Z, kOutsideDrift_Partial).
Proof. destruct (cluster_loop_state w (1%Z, kOutsideDrift_Partial) hitVecs); assumption. Qed.

Lemma cluster_loop_app (w : Z) (st : Z * CosmicTagID_t) (l1 l2 : list (list Hit)) :
  cluster_loop w st (l1 ++ l2) =
  let '(st1, seen1) := cluster_loop w st l1 in
  let '(st2, seen2) := cluster_loop w st1 l2 in
  (st2, seen1 ++ seen2).
Proof.
  revert st; induction l1 as [|hv rest IH]; intros st; simpl.
  - destruct (cluster_loop w st l2); reflexivity.
  - destruct (hit_loop w st hv) as [a s]. rewrite IH.
    destruct (cluster_loop w a rest) as [b t].
    destruct (cluster_loop w b l2) as [c u]. rewrite app_assoc; reflexivity.
Qed.

Lemma hit_loop_break (w : Z) (st : Z * CosmicTagID_t) (pre : list Hit) (hit : Hit)
  (post : list Hit) :
  Forall (fun h => out_of_time w h = false) pre -> out_of_time w hit = true ->
  hit_loop w st (pre ++ hit :: post) = ((1%Z, kOutsideDrift_Partial), pre ++ [hit]).
Proof.
  intros Hpre Hhit; induction Hpre as [|h pre Hh Hpre IH]; simpl.
  - rewrite Hhit; reflexivity.
  - rewrite Hh, IH; reflexivity.
Qed.

(** C5: when a cluster's hits are [pre ++ hit :: post] with [hit] the first
    out-of-time hit, the timing scan sets [(1, kOutsideDrift_Partial)],
    runs on [pre ++ [hit]] of that cluster and skips [post], goes on with
    every later cluster unchanged, and the flag is never cleared again. *)
Theorem C5_timing_scan (w : Z) (st : Z * CosmicTagID_t) (before : list (list Hit))
  (pre : list Hit) (hit : Hit) (post : list Hit) (after : list (list Hit)) :
  Forall (fun h => out_of_time w h = false) pre -> out_of_time w hit = true ->
  fst (cluster_loop w st (before ++ (pre ++ hit :: post) :: after)) = (1%Z, kOutsideDrift_Partial)
  /\ snd (cluster_loop w st (before ++ (pre ++ hit :: post) :: after))
     = snd (cluster_loop w st before) ++ (pre ++ [hit]) ++ snd (cluster_loop w st after)
  /\ (forall hitVecs, fst (cluster_loop w (1%Z, kOutsideDrift_Partial) hitVecs)
                      = (1%Z, kOutsideDrift_Partial)).
Proof.
  intros Hpre Hhit.
  rewrite cluster_loop_app.
  destruct (cluster_loop w st before) as [st1 seen1] eqn:E1; simpl.
  rewrite (hit_loop_break w st1 pre hit post Hpre Hhit).
  pose proof (cluster_loop_sticky w after) as Hs.
  pose proof (cluster_loop_seen_indep w after (1%Z, kOutsideDrift_Partial) st) as Hi.
  destruct (cluster_loop w (1%Z, kOutsideDrift_Partial) after) as [st2 seen2]; simpl in *.
  split; [exact Hs|split; [rewrite Hi; reflexivity|apply cluster_loop_sticky]].
Qed.

Lemma C5_timing_scan_witness :
  Forall (fun h => out_of_time 100 h = false) [mkHit 150 150]
  /\ out_of_time 100 (mkHit 0 0) = true
  /\ fst (cluster_loop 100 (0%Z, kNotTagged)
            ([] ++ ([mkHit 150 150] ++ mkHit 0 0 :: [mkHit 150 150]) :: [[mkHit 150 150]]))
     = (1%Z, kOutsideDrift_Partial).
Proof.
  assert (Hin : out_of_time 100 (mkHit 150 150) = false)
    by (unfold out_of_time; simpl; decide_Rltb; reflexivity).
  assert (Hout : out_of_time 100 (mkHit 0 0) = true)
    by (unfold out_of_time; simpl; decide_Rltb; reflexivity).
  split; [constructor; [exact Hin|constructor]|split; [exact Hout|]].
  apply (C5_timing_scan 100 (0%Z, kNotTagged) [] [mkHit 150 150] (mkHit 0 0) [mkHit 150 150]
           [[mkHit 150 150]]); [constructor; [exact Hin|constructor] | exact Hout].
Defined.

(** ** Claim C7 *)

(** C7: of two axes the pair is swapped exactly when the first has the
    larger id, and the (new) first one is the canonical axis; ids (5, 3)
    select the axis with id 3. *)
Theorem C7_axis_pair (a b : PCAxis) :
  order_axes [a; b] = (if Z.ltb (getID b) (getID a) then [b; a] else [a; b])
  /\ select_axis [a; b] = Some (if Z.ltb (getID b) (getID a) then b else a)
  /\ (getID a = 5%Z -> getID b = 3%Z -> select_axis [a; b] = Some b).
Proof.
  unfold select_axis, order_axes; simpl.
  destruct (Z.ltb (getID b) (getID a)) eqn:E; simpl.
  - split; [reflexivity|split; [reflexivity|]]; intros; reflexivity.
  - split; [reflexivity|split; [reflexivity|]].
    intros Ha Hb; rewrite Ha, Hb in E; discriminate.
Qed.

(** ** The PFParticle loop *)

Lemma produce_loop_ind (cfg : Config) (evt : Event) (P : Output -> Prop) :
  (forall out i out', P out -> produce_one cfg evt out i = Some out' -> P out') ->
  forall idxs out0 out, P out0 -> produce_loop cfg evt out0 idxs = Some out -> P out.
Proof.
  intros Hstep idxs; induction idxs as [|i rest IH]; intros out0 out H0 Hrun; simpl in Hrun.
  - injection Hrun as <-; exact H0.
  - destruct (produce_one cfg evt out0 i) as [out'|] eqn:E; [|discriminate].
    exact (IH out' out (Hstep _ _ _ H0 E) Hrun).
Qed.

Lemma produce_ind (cfg : Config) (evt : Event) (P : Output -> Prop) :
  P empty_output ->
  (forall out i out', P out -> produce_one cfg evt out i = Some out' -> P out') ->
  forall out, produce cfg evt = Some out -> P out.
Proof.
  intros H0 Hstep out Hrun; unfold produce in Hrun.
  destruct (pfParticleHandle evt) as [pfs|]; [|injection Hrun as <-; exact H0].
  destruct (pcaxisHandle evt), (clusterHandle evt); try (injection Hrun as <-; exact H0).
  exact (produce_loop_ind cfg evt P Hstep _ _ _ H0 Hrun).
Qed.

Lemma order_axes_perm (v : list PCAxis) : Permutation (order_axes v) v.
Proof.
  unfold order_axes; destruct v as [|a rest]; [reflexivity|].
  destruct (_ && _); [symmetry; apply Permutation_rev|reflexivity].
Qed.

Lemma order_axes_cons (a : PCAxis) (rest : list PCAxis) :
  exists b l, order_axes (a :: rest) = b :: l.
Proof.
  destruct (order_axes (a :: rest)) as [|b l] eqn:E; [|eauto].
  pose proof (order_axes_perm (a :: rest)) as HP; rewrite E in HP.
  apply Permutation_nil in HP; discriminate.
Qed.

(** One step of the loop either skips the PFParticle (no axis) or appends
    one tag and its associations. *)
Lemma produce_one_spec (cfg : Config) (evt : Event) (out out' : Output) (i : nat)
  (axs : list (list PCAxis)) :
  pfPartToPCAxisAssns evt = Some axs ->
  produce_one cfg evt out i = Some out' ->
  (nth i axs [] = [] /\ out' = out)
  \/ (nth i axs [] <> []
      /\ exists pcAxis hitVecs spacePointVec,
           let k := length (cosmicTagPFParticleVector out) in
           out' = mkOutput
                    (cosmicTagPFParticleVector out
                       ++ [make_tag (classify cfg pcAxis hitVecs spacePointVec)])
                    (assnOutCosmicTagPFParticle out ++ [(i, k)])
                    (assnOutCosmicTagPCAxis out
                       ++ map (fun axis => (axis, k)) (order_axes (nth i axs [])))).
Proof.
  intros Hax Hrun; unfold produce_one in Hrun; rewrite Hax in Hrun; cbn [fm_at] in Hrun.
  destruct (nth_error axs i) as [v|] eqn:Ev; [|discriminate].
  rewrite (nth_error_nth _ _ _ Ev).
  destruct v as [|a rest]; [left; split; [reflexivity|injection Hrun as <-; reflexivity]|].
  right; split; [discriminate|].
  destruct (order_axes_cons a rest) as (pcAxis & l & Hord).
  rewrite Hord in Hrun |- *; cbn [hd_error] in Hrun.
  destruct (fm_at (clusterAssns evt) i); [|discriminate].
  destruct (map_option _ _) as [hitVecs|]; [|discriminate].
  destruct (fm_at (spacePointAssnVec evt) i) as [sps|]; [|discriminate].
  injection Hrun as <-. exists pcAxis, hitVecs, sps; reflexivity.
Qed.

Lemma produce_one_axes (cfg : Config) (evt : Event) (out out' : Output) (i : nat) :
  produce_one cfg evt out i = Some out' -> exists axs, pfPartToPCAxisAssns evt = Some axs.
Proof.
  unfold produce_one; destruct (pfPartToPCAxisAssns evt) as [axs|]; [eauto|discriminate].
Qed.

Lemma produce_loop_fail (cfg : Config) (evt : Event) (i : nat) :
  (forall out, produce_one cfg evt out i = None) ->
  forall idxs out0, In i idxs -> produce_loop cfg evt out0 idxs = None.
Proof.
  intros Hi idxs; induction idxs as [|j rest IH]; intros out0 Hin; [destruct Hin|simpl].
  destruct Hin as [->|Hin]; [rewrite Hi; reflexivity|].
  destruct (produce_one cfg evt out0 j); [apply IH; exact Hin|reflexivity].
Qed.

(** ** Claim C8 *)

(** C8: every produced tag has score 0, 0.4, 0.5 or 1, and its score is
    the one of its tag kind: 0 for [kNotTagged], 0.4 for [kGeometry_ZZ],
    0.5 for [kGeometry_X/Y/Z], 1 otherwise. *)
Theorem C8_score_of_kind (cfg : Config) (evt : Event) (out : Output) :
  produce cfg evt = Some out ->
  Forall (fun t => cosmicScore t = spec_score_of_tag (tag_id t)
                   /\ (cosmicScore t = 0 \/ cosmicScore t = 4 / 10
                       \/ cosmicScore t = 1 / 2 \/ cosmicScore t = 1))
    (cosmicTagPFParticleVector out).
Proof.
  apply (produce_ind cfg evt (fun o => Forall (fun t => cosmicScore t = spec_score_of_tag (tag_id t)
                   /\ (cosmicScore t = 0 \/ cosmicScore t = 4 / 10
                       \/ cosmicScore t = 1 / 2 \/ cosmicScore t = 1))
    (cosmicTagPFParticleVector o))); [constructor|].
  intros o i o' Ho Hstep.
  destruct (produce_one_axes _ _ _ _ _ Hstep) as [axs Hax].
  destruct (produce_one_spec cfg evt o o' i axs Hax Hstep) as [[_ ->]|[_ (pcAxis & hv & sps & ->)]];
    [exact Ho|simpl].
  apply Forall_app; split; [exact Ho|constructor; [|constructor]].
  simpl; rewrite classify_score.
  split; [reflexivity|].
  destruct (res_tag (classify cfg pcAxis hv sps)); simpl; tauto.
Qed.

Lemma C8_score_of_kind_witness :
  exists out, produce cfg_example evt_two = Some out
    /\ Forall (fun t => cosmicScore t = spec_score_of_tag (tag_id t)
                        /\ (cosmicScore t = 0 \/ cosmicScore t = 4 / 10
                            \/ cosmicScore t = 1 / 2 \/ cosmicScore t = 1))
         (cosmicTagPFParticleVector out).
Proof.
  destruct (produce cfg_example evt_two) as [out|] eqn:E.
  - exists out; split; [reflexivity|exact (C8_score_of_kind cfg_example evt_two out E)].
  - vm_compute in E; discriminate E.
Defined.

(** ** Claim C9 *)

Lemma produce_loop_spec (cfg : Config) (evt : Event) (axs : list (list PCAxis)) :
  pfPartToPCAxisAssns evt = Some axs ->
  forall idxs out0 out, produce_loop cfg evt out0 idxs = Some out ->
  let T := filter (has_axis axs) idxs in
  let k0 := length (cosmicTagPFParticleVector out0) in
  length (cosmicTagPFParticleVector out) = (k0 + length T)%nat
  /\ assnOutCosmicTagPFParticle out
     = assnOutCosmicTagPFParticle out0 ++ combine T (seq k0 (length T))
  /\ assnOutCosmicTagPCAxis out
     = assnOutCosmicTagPCAxis out0 ++ axis_assns_of axs (combine T (seq k0 (length T))).
Proof.
  intros Hax idxs; induction idxs as [|i rest IH]; intros out0 out Hrun; simpl in Hrun.
  - injection Hrun as <-; simpl; rewrite !app_nil_r; split; [lia|split; reflexivity].
  - destruct (produce_one cfg evt out0 i) as [out'|] eqn:E; [|discriminate].
    destruct (IH out' out Hrun) as (H1 & H2 & H3).
    destruct (produce_one_spec cfg evt out0 out' i axs Hax E)
      as [[Hn ->]|[Hn (pcAxis & hv & sps & ->)]].
    + assert (Hh : has_axis axs i = false) by (unfold has_axis; rewrite Hn; reflexivity).
      simpl; rewrite Hh.
      split; [exact H1|split; assumption].
    + assert (Hh : has_axis axs i = true)
        by (unfold has_axis; destruct (nth i axs []); [congruence|reflexivity]).
      simpl; rewrite Hh.
      destruct (nth i axs []) as [|a l] eqn:Ea; [congruence|].
      simpl in H1, H2, H3 |- *.
      rewrite length_app in H1, H2, H3; simpl in H1, H2, H3.
      split; [lia|].
      rewrite H2, H3, <- !app_assoc.
      replace (length (cosmicTagPFParticleVector out0) + 1)%nat
        with (S (length (cosmicTagPFParticleVector out0))) by lia.
      split; [reflexivity|].
      unfold axis_assns_of; simpl; rewrite Ea; reflexivity.
Qed.

Lemma axis_assns_fst (axs : list (list PCAxis)) (T : list nat) :
  forall k, map fst (axis_assns_of axs (combine T (seq k (length T))))
            = flat_map (fun i => order_axes (nth i axs [])) T.
Proof.
  induction T as [|i T IH]; intros k; simpl; [reflexivity|].
  unfold axis_assns_of in *; simpl.
  rewrite map_app, IH, map_map; simpl; rewrite map_id; reflexivity.
Qed.

Lemma flat_map_order_axes_perm (axs : list (list PCAxis)) (T : list nat) :
  Permutation (flat_map (fun i => order_axes (nth i axs [])) T)
              (flat_map (fun i => nth i axs []) T).
Proof.
  induction T as [|i T IH]; simpl; [reflexivity|].
  apply Permutation_app; [apply order_axes_perm|exact IH].
Qed.

Lemma flat_map_filter_has_axis (axs : list (list PCAxis)) (l : list nat) :
  flat_map (fun i => nth i axs []) (filter (has_axis axs) l) = flat_map (fun i => nth i axs []) l.
Proof.
  induction l as [|i l IH]; simpl; [reflexivity|].
  unfold has_axis at 1; destruct (nth i axs []) eqn:E; simpl; rewrite ?E, IH; reflexivity.
Qed.

(** C9: when the event's collections are valid, one tag is produced per
    PFParticle with at least one axis, in PFParticle order; PFParticles
    without an axis get no tag and no association; the axis-to-tag table
    holds, for each tagged PFParticle, every one of its axes. *)
Theorem C9_tags_per_axis_object (cfg : Config) (evt : Event) (out : Output)
  (pfParticles : list PFParticle) (axs : list (list PCAxis)) :
  produce cfg evt = Some out ->
  pfParticleHandle evt = Some pfParticles -> pcaxisHandle evt <> None ->
  clusterHandle evt <> None -> pfPartToPCAxisAssns evt = Some axs ->
  let tagged := filter (has_axis axs) (seq 0 (length pfParticles)) in
  length (cosmicTagPFParticleVector out) = length tagged
  /\ assnOutCosmicTagPFParticle out = combine tagged (seq 0 (length tagged))
  /\ assnOutCosmicTagPCAxis out = axis_assns_of axs (combine tagged (seq 0 (length tagged)))
  /\ Permutation (map fst (assnOutCosmicTagPCAxis out))
       (flat_map (fun i => nth i axs []) (seq 0 (length pfParticles))).
Proof.
  intros Hrun Hpf Hpca Hcl Hax tagged.
  unfold produce in Hrun; rewrite Hpf in Hrun.
  destruct (pcaxisHandle evt); [|congruence].
  destruct (clusterHandle evt); [|congruence].
  destruct (produce_loop_spec cfg evt axs Hax _ _ _ Hrun) as (H1 & H2 & H3).
  simpl in H1, H2, H3; fold tagged in H1, H2, H3.
  split; [exact H1|split; [exact H2|split; [exact H3|]]].
  rewrite H3, axis_assns_fst.
  rewrite <- (flat_map_filter_has_axis axs (seq 0 (length pfParticles))).
  apply flat_map_order_axes_perm.
Qed.

Lemma C9_tags_per_axis_object_witness :
  exists out, produce cfg_example evt_two = Some out
    /\ length (cosmicTagPFParticleVector out)
       = length (filter (has_axis [[ax5; ax3]; []]) (seq 0 2)).
Proof.
  destruct (produce cfg_example evt_two) as [out|] eqn:E.
  - exists out; split; [reflexivity|].
    exact (proj1 (C9_tags_per_axis_object cfg_example evt_two out [0%nat; 1%nat]
                    [[ax5; ax3]; []] E eq_refl ltac:(discriminate) ltac:(discriminate) eq_refl)).
  - vm_compute in E; discriminate E.
Defined.

(** ** Claim C6 *)

(** C6 (as amended): when the PFParticle, PCAxis or Cluster collection is
    invalid, the three outputs are empty and no exception is raised; when
    the axis or space-point association is missing, [produce] never
    returns a non-empty output, and once a PFParticle reaches that lookup
    ([at] on the axis association for any PFParticle, on the space-point
    association for a PFParticle with an axis) the event raises. *)
Theorem C6_invalid_inputs (cfg : Config) (evt : Event) :
  (pfParticleHandle evt = None \/ pcaxisHandle evt = None \/ clusterHandle evt = None ->
   produce cfg evt = Some empty_output)
  /\ (pfPartToPCAxisAssns evt = None \/ spacePointAssnVec evt = None ->
      forall out, produce cfg evt = Some out -> out = empty_output)
  /\ (forall pfParticles,
        pfParticleHandle evt = Some pfParticles ->
        pcaxisHandle evt <> None -> clusterHandle evt <> None ->
        (pfPartToPCAxisAssns evt = None /\ pfParticles <> [])
        \/ (spacePointAssnVec evt = None
            /\ exists axs i, pfPartToPCAxisAssns evt = Some axs
                 /\ (i < length pfParticles)%nat /\ nth i axs [] <> []) ->
        produce cfg evt = None).
Proof.
  split; [|split].
  - intros H; unfold produce.
    destruct (pfParticleHandle evt); [|reflexivity].
    destruct H as [H|[H|H]]; [discriminate|rewrite H; reflexivity|].
    rewrite H; destruct (pcaxisHandle evt); reflexivity.
  - intros H; apply produce_ind; [reflexivity|].
    intros o i o' -> Hstep; unfold produce_one in Hstep.
    destruct H as [H|H]; rewrite H in Hstep; [discriminate|].
    destruct (fm_at (pfPartToPCAxisAssns evt) i) as [[|a rest]|]; [congruence| |discriminate].
    destruct (order_axes_cons a rest) as (b & l & Hord); rewrite Hord in Hstep.
    cbn [hd_error] in Hstep.
    destruct (fm_at (clusterAssns evt) i); [|discriminate].
    destruct (map_option _ _); discriminate.
  - intros pfs Hpf Hpca Hcl Hmiss; unfold produce; rewrite Hpf.
    destruct (pcaxisHandle evt); [|congruence].
    destruct (clusterHandle evt); [|congruence].
    destruct Hmiss as [[Hax Hne] | [Hsp (axs & i & Hax & Hi & Hn)]].
    + apply (produce_loop_fail cfg evt 0); [|apply in_seq; destruct pfs; [congruence|simpl; lia]].
      intros out; unfold produce_one; rewrite Hax; reflexivity.
    + apply (produce_loop_fail cfg evt i); [|apply in_seq; lia].
      intros out; unfold produce_one; rewrite Hax; cbn [fm_at].
      destruct (nth_error axs i) as [v|] eqn:Ev;
        [|apply nth_error_None in Ev; rewrite nth_overflow in Hn by exact Ev; congruence].
      rewrite (nth_error_nth _ _ _ Ev) in Hn.
      destruct v as [|a rest]; [congruence|].
      destruct (order_axes_cons a rest) as (b & bs & ->); cbn [hd_error].
      destruct (fm_at (clusterAssns evt) i); [|reflexivity].
      destruct (map_option _ _); [|reflexivity].
      rewrite Hsp; reflexivity.
Qed.

Lemma C6_invalid_inputs_witness :
  spacePointAssnVec evt_no_sp = None /\ produce cfg_example evt_no_sp = None.
Proof.
  split; [reflexivity|].
  apply (proj2 (proj2 (C6_invalid_inputs cfg_example evt_no_sp)) [0%nat]);
    try reflexivity; try discriminate.
  right; split; [reflexivity|].
  exists [[axis_unit]], 0%nat; split; [reflexivity|split; [simpl; lia|discriminate]].
Defined.

(** C6 as stated fails: with the space-point association missing, the
    event raises instead of producing empty outputs. *)
Lemma C6_counterexample :
  ~ (forall cfg evt,
       pfPartToPCAxisAssns evt = None \/ spacePointAssnVec evt = None ->
       produce cfg evt = Some empty_output).
Proof.
  intros H.
  specialize (H cfg_example evt_no_sp (or_intror eq_refl)).
  vm_compute in H; discriminate H.
Qed.

Lemma C10_fallback_endpoints_witness :
  ((timing_flag cfg_example [] <> 0%Z \/ ([] : list SpacePoint) = []
    \/ eigenValue0 axis_unit <= 0 \/ transRMS axis_unit <= 0)
  /\ endPt1 (make_tag (classify cfg_example axis_unit [] []))
     = vsub (getAvePosition axis_unit)
         (vscale (3 * sqrt (eigenValue0 axis_unit)) (eigenVector0 axis_unit)))%type.
Proof.
  assert (H : timing_flag cfg_example [] <> 0%Z \/ ([] : list SpacePoint) = []
              \/ eigenValue0 axis_unit <= 0 \/ transRMS axis_unit <= 0)
    by (right; left; reflexivity).
  split; [exact H|].
  exact (proj1 (C10_fallback_endpoints cfg_example axis_unit [] [] H)).
Defined.

Lemma C4_rule1_witness :
  timing_flag cfg_example [] = 0%Z /\ points_xx <> [] /\ 0 < eigenValue0 axis_mid
  /\ 0 < transRMS axis_mid
  /\ (let r := classify cfg_example axis_mid [] points_xx in
      let s := res_start r in
      let e := res_end r in
      res_isCosmic r = 2%Z <->
      ((nearX cfg_example s || nearY cfg_example s) && (nearX cfg_example e || nearY cfg_example e))
      || ((nearX cfg_example s || nearY cfg_example s) && nearZ cfg_example e)
      || ((nearX cfg_example s || nearY cfg_example s) && nearZ cfg_example s) = true).
Proof.
  assert (Ht : 0 < transRMS axis_mid) by (unfold transRMS; simpl; apply sqrt_lt_R0; lra).
  split; [reflexivity|split; [discriminate|split; [simpl; lra|split; [exact Ht|]]]].
  exact (proj1 (C4_rule1 cfg_example axis_mid [] points_xx eq_refl ltac:(discriminate)
                  ltac:(simpl; lra) Ht)).
Defined.

(** * Further properties of [produce] *)

(** ** The decision table *)

Lemma classify_run_rules (cfg : Config) (pcAxis : PCAxis) (hitVecs : list (list Hit))
  (spacePointVec : list SpacePoint) :
  timing_flag cfg hitVecs = 0%Z -> spacePointVec <> [] ->
  0 < eigenValue0 pcAxis -> 0 < transRMS pcAxis ->
  exists s e, classify cfg pcAxis hitVecs spacePointVec =
    mkObjResult
      (fst (boundary_rules (nearX cfg s) (nearX cfg e) (nearY cfg s) (nearY cfg e)
              (nearZ cfg s) (nearZ cfg e) 0%Z kNotTagged))
      (snd (boundary_rules (nearX cfg s) (nearX cfg e) (nearY cfg s) (nearY cfg e)
              (nearZ cfg s) (nearZ cfg e) 0%Z kNotTagged))
      s e.
Proof.
  intros Hf Hsp He0 Ht.
  pose proof (classify_run cfg pcAxis hitVecs spacePointVec Hf Hsp He0 Ht) as H.
  destruct (extent_points pcAxis spacePointVec) as [s e].
  exists s, e; rewrite H; destruct (boundary_rules _ _ _ _ _ _ _ _); reflexivity.
Qed.

Ltac bool_table cfg s e :=
  destruct (nearX cfg s), (nearX cfg e), (nearY cfg s), (nearY cfg e),
    (nearZ cfg s), (nearZ cfg e); simpl;
  repeat split; intros; first [reflexivity | discriminate].

(** An object reaching the boundary classifier is left [kNotTagged] (score
    0) exactly when no end point is near a face, or when the start point is
    near a z face only and the end point is near an x or y face but not a
    z face. *)
Theorem rules_not_tagged_iff (cfg : Config) (pcAxis : PCAxis)
  (hitVecs : list (list Hit)) (spacePointVec : list SpacePoint) :
  timing_flag cfg hitVecs = 0%Z -> spacePointVec <> [] ->
  0 < eigenValue0 pcAxis -> 0 < transRMS pcAxis ->
  let r := classify cfg pcAxis hitVecs spacePointVec in
  let s := res_start r in
  let e := res_end r in
  (tag_id (make_tag r) = kNotTagged <->
   (negb (nearX cfg s || nearY cfg s || nearZ cfg s) && negb (nearX cfg e || nearY cfg e || nearZ cfg e)
    || nearZ cfg s && negb (nearX cfg s || nearY cfg s)
       && (nearX cfg e || nearY cfg e) && negb (nearZ cfg e)) = true)
  /\ (tag_id (make_tag r) = kNotTagged -> cosmicScore (make_tag r) = 0).
Proof.
  intros Hf Hsp He0 Ht.
  destruct (classify_run_rules cfg pcAxis hitVecs spacePointVec Hf Hsp He0 Ht) as (s & e & ->).
  cbn [res_start res_end make_tag tag_id cosmicScore res_tag res_isCosmic].
  unfold boundary_rules; bool_table cfg s e.
Qed.

Lemma rules_not_tagged_iff_witness :
  timing_flag cfg_example [] = 0%Z /\ points_xx <> [] /\ 0 < eigenValue0 axis_mid
  /\ 0 < transRMS axis_mid
  /\ (tag_id (make_tag (classify cfg_example axis_mid [] points_xx)) = kNotTagged ->
      cosmicScore (make_tag (classify cfg_example axis_mid [] points_xx)) = 0).
Proof.
  assert (Ht : 0 < transRMS axis_mid) by (unfold transRMS; simpl; apply sqrt_lt_R0; lra).
  split; [reflexivity|split; [discriminate|split; [simpl; lra|split; [exact Ht|]]]].
  exact (proj2 (rules_not_tagged_iff cfg_example axis_mid [] points_xx eq_refl
                  ltac:(discriminate) ltac:(simpl; lra) Ht)).
Defined.

(** Rule 2 ([kGeometry_ZZ], score 0.4) applies exactly when both end points
    are near a z face and the start point is near neither an x nor a y
    face; the end point may also be near an x or y face. *)
Theorem rules_zz_iff (cfg : Config) (pcAxis : PCAxis)
  (hitVecs : list (list Hit)) (spacePointVec : list SpacePoint) :
  timing_flag cfg hitVecs = 0%Z -> spacePointVec <> [] ->
  0 < eigenValue0 pcAxis -> 0 < transRMS pcAxis ->
  let r := classify cfg pcAxis hitVecs spacePointVec in
  let s := res_start r in
  let e := res_end r in
  (tag_id (make_tag r) = kGeometry_ZZ <->
   (nearZ cfg s && nearZ cfg e && negb (nearX cfg s || nearY cfg s)) = true)
  /\ (tag_id (make_tag r) = kGeometry_ZZ -> res_isCosmic r = 3%Z /\ cosmicScore (make_tag r) = 4 / 10).
Proof.
  intros Hf Hsp He0 Ht.
  destruct (classify_run_rules cfg pcAxis hitVecs spacePointVec Hf Hsp He0 Ht) as (s & e & ->).
  cbn [res_start res_end make_tag tag_id cosmicScore res_tag res_isCosmic].
  unfold boundary_rules; bool_table cfg s e.
Qed.

Lemma rules_zz_iff_witness :
  timing_flag cfg_example [] = 0%Z /\ points_xx <> [] /\ 0 < eigenValue0 axis_mid
  /\ 0 < transRMS axis_mid
  /\ (tag_id (make_tag (classify cfg_example axis_mid [] points_xx)) = kGeometry_ZZ ->
      res_isCosmic (classify cfg_example axis_mid [] points_xx) = 3%Z
      /\ cosmicScore (make_tag (classify cfg_example axis_mid [] points_xx)) = 4 / 10).
Proof.
  assert (Ht : 0 < transRMS axis_mid) by (unfold transRMS; simpl; apply sqrt_lt_R0; lra).
  split; [reflexivity|split; [discriminate|split; [simpl; lra|split; [exact Ht|]]]].
  exact (proj2 (rules_zz_iff cfg_example axis_mid [] points_xx eq_refl
                  ltac:(discriminate) ltac:(simpl; lra) Ht)).
Defined.

(** Rule 3 (cosmic level 4, score 0.5) applies exactly when only the end
    point is near a face, or only the start point is, without being both
    near an x/y face and a z face (that case is caught by rule 1); its tag
    is then [kGeometry_X], [kGeometry_Y] or [kGeometry_Z], never
    [kNotTagged]. *)
Theorem rules_single_end_iff (cfg : Config) (pcAxis : PCAxis)
  (hitVecs : list (list Hit)) (spacePointVec : list SpacePoint) :
  timing_flag cfg hitVecs = 0%Z -> spacePointVec <> [] ->
  0 < eigenValue0 pcAxis -> 0 < transRMS pcAxis ->
  let r := classify cfg pcAxis hitVecs spacePointVec in
  let s := res_start r in
  let e := res_end r in
  let any_s := nearX cfg s || nearY cfg s || nearZ cfg s in
  let any_e := nearX cfg e || nearY cfg e || nearZ cfg e in
  (res_isCosmic r = 4%Z <->
   (negb any_s && any_e
    || any_s && negb any_e && negb ((nearX cfg s || nearY cfg s) && nearZ cfg s)) = true)
  /\ (res_isCosmic r = 4%Z ->
      cosmicScore (make_tag r) = 1 / 2
      /\ tag_id (make_tag r) =
         if nearX cfg s || nearX cfg e then kGeometry_X
         else if nearY cfg s || nearY cfg e then kGeometry_Y
         else kGeometry_Z).
Proof.
  intros Hf Hsp He0 Ht.
  destruct (classify_run_rules cfg pcAxis hitVecs spacePointVec Hf Hsp He0 Ht) as (s & e & ->).
  cbn [res_start res_end make_tag tag_id cosmicScore res_tag res_isCosmic].
  unfold boundary_rules; bool_table cfg s e.
Qed.

Lemma rules_single_end_iff_witness :
  timing_flag cfg_example [] = 0%Z /\ points_xx <> [] /\ 0 < eigenValue0 axis_mid
  /\ 0 < transRMS axis_mid
  /\ (res_isCosmic (classify cfg_example axis_mid [] points_xx) = 4%Z ->
      cosmicScore (make_tag (classify cfg_example axis_mid [] points_xx)) = 1 / 2).
Proof.
  assert (Ht : 0 < transRMS axis_mid) by (unfold transRMS; simpl; apply sqrt_lt_R0; lra).
  split; [reflexivity|split; [discriminate|split; [simpl; lra|split; [exact Ht|]]]].
  intros H4.
  exact (proj1 (proj2 (rules_single_end_iff cfg_example axis_mid [] points_xx eq_refl
                         ltac:(discriminate) ltac:(simpl; lra) Ht) H4)).
Defined.

(** ** Timing flag *)

Lemma hit_loop_flag (w : Z) (hitVec : list Hit) :
  fst (hit_loop w (0%Z, kNotTagged) hitVec) = (1%Z, kOutsideDrift_Partial)
  <-> exists h, In h hitVec /\ out_of_time w h = true.
Proof.
  induction hitVec as [|h rest IH]; simpl.
  - split; [discriminate|intros (? & [] & _)].
  - destruct (out_of_time w h) eqn:Eh; simpl.
    + split; [intros _; exists h; auto|reflexivity].
    + destruct (hit_loop w (0%Z, kNotTagged) rest) as [st seen]; simpl in *.
      rewrite IH; split.
      * intros (h' & Hin & Ho); exists h'; auto.
      * intros (h' & [<-|Hin] & Ho); [congruence|eauto].
Qed.

(** The timing flag is set, with candidate tag [kOutsideDrift_Partial],
    exactly when some hit of some cluster is out of time; otherwise the
    state stays [(0, kNotTagged)]. *)
Theorem timing_flag_iff (w : Z) (hitVecs : list (list Hit)) :
  (fst (cluster_loop w (0%Z, kNotTagged) hitVecs) = (1%Z, kOutsideDrift_Partial)
   <-> exists hitVec h, In hitVec hitVecs /\ In h hitVec /\ out_of_time w h = true)
  /\ ((forall hitVec h, In hitVec hitVecs -> In h hitVec -> out_of_time w h = false) ->
      fst (cluster_loop w (0%Z, kNotTagged) hitVecs) = (0%Z, kNotTagged)).
Proof.
  assert (Hiff : fst (cluster_loop w (0%Z, kNotTagged) hitVecs) = (1%Z, kOutsideDrift_Partial)
   <-> exists hitVec h, In hitVec hitVecs /\ In h hitVec /\ out_of_time w h = true).
  { induction hitVecs as [|hv rest IH]; simpl.
    - split; [discriminate|intros (? & ? & [] & _)].
    - pose proof (hit_loop_flag w hv) as Hh.
      pose proof (hit_loop_state w (0%Z, kNotTagged) hv) as Hs.
      destruct (hit_loop w (0%Z, kNotTagged) hv) as [st1 seen1]; simpl in Hh, Hs.
      destruct Hs as [->| ->].
      + destruct (cluster_loop w (0%Z, kNotTagged) rest) as [st2 seen2] eqn:E; simpl in *.
        rewrite IH; split.
        * intros (hv' & h & Hin & Hh' & Ho); exists hv', h; auto.
        * intros (hv' & h & [<-|Hin] & Hh' & Ho).
          -- exfalso; assert (Hc : (0%Z, kNotTagged) = (1%Z, kOutsideDrift_Partial))
               by (apply Hh; eauto); discriminate.
          -- eauto.
      + pose proof (cluster_loop_sticky w rest) as Hst.
        destruct (cluster_loop w (1%Z, kOutsideDrift_Partial) rest); simpl in *.
        split; [intros _|intros _; exact Hst].
        destruct (proj1 Hh eq_refl) as (h & Hin & Ho); exists hv, h; auto. }
  split; [exact Hiff|].
  intros Hall.
  destruct (cluster_loop_state w (0%Z, kNotTagged) hitVecs) as [H|H]; [exact H|].
  apply Hiff in H as (hv & h & Hv & Hh & Ho).
  rewrite (Hall hv h Hv Hh) in Ho; discriminate.
Qed.

(** ** Axis selection for any number of axes *)

Lemma last_default_irrel {A : Type} (l : list A) (d1 d2 : A) :
  l <> [] -> last l d1 = last l d2.
Proof.
  induction l as [|x [|y l'] IH]; intros Hne; [congruence|reflexivity|].
  apply IH; discriminate.
Qed.

(** For any non-empty list of axes, the canonical axis is one of them and
    carries the smaller of the ids of the first and the last listed axis. *)
Theorem select_axis_min_id (pcAxisVec : list PCAxis) (a0 : PCAxis) :
  pcAxisVec <> [] ->
  exists pcAxis, select_axis pcAxisVec = Some pcAxis /\ In pcAxis pcAxisVec
    /\ getID pcAxis = Z.min (getID (hd a0 pcAxisVec)) (getID (last pcAxisVec a0)).
Proof.
  intros Hne; destruct pcAxisVec as [|front rest]; [congruence|].
  unfold select_axis, order_axes.
  assert (Hlast : last (front :: rest) front = last (front :: rest) a0)
    by (apply last_default_irrel; discriminate).
  destruct (Nat.ltb 1 (length (front :: rest)) && Z.ltb (getID (last (front :: rest) front)) (getID front)) eqn:E.
  - apply andb_true_iff in E as [_ E]; apply Z.ltb_lt in E.
    rewrite Hlast in E.
    destruct (rev (front :: rest)) as [|b l] eqn:Er.
    { apply (f_equal (@length _)) in Er; rewrite length_rev in Er; discriminate. }
    exists b; split; [reflexivity|split].
    + apply in_rev; rewrite Er; left; reflexivity.
    + assert (Hb : b = last (front :: rest) a0).
      { rewrite <- (rev_involutive (front :: rest)), Er.
        simpl; rewrite last_last; reflexivity. }
      rewrite Hb; simpl hd; lia.
  - exists front; split; [reflexivity|split; [left; reflexivity|]].
    simpl hd; apply andb_false_iff in E as [E|E].
    + destruct rest as [|b rest']; [simpl; lia|discriminate].
    + apply Z.ltb_ge in E; rewrite Hlast in E; lia.
Qed.

Lemma select_axis_min_id_witness :
  [ax5; ax3] <> [] /\ select_axis [ax5; ax3] = Some ax3.
Proof.
  split; [discriminate|].
  destruct (select_axis_min_id [ax5; ax3] ax5 ltac:(discriminate)) as (a & Ha & Hin & Hid).
  simpl in Hin, Hid; destruct Hin as [<-|[<-|[]]]; [discriminate Hid|exact Ha].
Defined.

(** ** Order of the extremal points *)

(** When the projector runs and every space point has an arc length strictly
    between -9999 and 9999, both end points are space points of the object
    and the start point lies no further along the axis than the end point. *)
Theorem extent_points_ordered (cfg : Config) (pcAxis : PCAxis)
  (hitVecs : list (list Hit)) (spacePointVec : list SpacePoint) :
  timing_flag cfg hitVecs = 0%Z -> spacePointVec <> [] ->
  0 < eigenValue0 pcAxis -> 0 < transRMS pcAxis ->
  let arc := arcLen (getAvePosition pcAxis) (eigenVector0 pcAxis) in
  (forall q, In q spacePointVec -> -9999 < arc q < 9999) ->
  let tag := make_tag (classify cfg pcAxis hitVecs spacePointVec) in
  In (endPt1 tag) spacePointVec /\ In (endPt2 tag) spacePointVec
  /\ arc (endPt1 tag) <= arc (endPt2 tag).
Proof.
  intros Hf Hsp He0 Ht arc Hin tag; subst tag; simpl.
  destruct (classify_run_points cfg pcAxis hitVecs spacePointVec Hf Hsp He0 Ht) as [-> ->].
  pose proof (extent_points_spec pcAxis spacePointVec) as H; simpl in H.
  destruct (extent_points pcAxis spacePointVec) as [s e]; simpl.
  destruct H as (_ & HB & _ & HD).
  destruct spacePointVec as [|q rest]; [congruence|].
  destruct (Hin q (or_introl eq_refl)) as [Hq1 Hq2].
  destruct (HB (Exists_cons_hd _ _ _ Hq2)) as (l1 & l2 & Es & _ & Ms).
  destruct (HD (Exists_cons_hd _ _ _ Hq1)) as (l3 & l4 & Ee & _ & Me).
  assert (Is : In s (q :: rest)) by (rewrite Es; apply in_elt).
  assert (Ie : In e (q :: rest)) by (rewrite Ee; apply in_elt).
  split; [exact Is|split; [exact Ie|]].
  rewrite Forall_forall in Ms; exact (Ms e Ie).
Qed.

Lemma extent_points_ordered_witness :
  timing_flag cfg_example [] = 0%Z /\ points_xx <> [] /\ 0 < eigenValue0 axis_mid
  /\ 0 < transRMS axis_mid
  /\ In (endPt1 (make_tag (classify cfg_example axis_mid [] points_xx))) points_xx.
Proof.
  assert (Ht : 0 < transRMS axis_mid) by (unfold transRMS; simpl; apply sqrt_lt_R0; lra).
  split; [reflexivity|split; [discriminate|split; [simpl; lra|split; [exact Ht|]]]].
  refine (proj1 (extent_points_ordered cfg_example axis_mid [] points_xx eq_refl
                   ltac:(discriminate) ltac:(simpl; lra) Ht _)).
  intros q [<-|[<-|[]]]; unfold arcLen, Dot, vsub; simpl; lra.
Defined.

(** ** Lookups and exceptions of the PFParticle loop *)

Lemma map_option_None {A B : Type} (f : A -> option B) (l : list A) (x : A) :
  In x l -> f x = None -> map_option f l = None.
Proof.
  induction l as [|y l IH]; intros Hin Hx; [destruct Hin|simpl].
  destruct Hin as [<-|Hin]; [rewrite Hx; reflexivity|].
  destruct (f y); [rewrite (IH Hin Hx); reflexivity|reflexivity].
Qed.

(** A PFParticle with an axis one of whose clusters has an [ID()] that is
    negative or not below the size of the cluster-to-hit association (or
    with that association missing) makes the whole event raise. *)
Theorem produce_bad_cluster_id (cfg : Config) (evt : Event) (pfParticles : list PFParticle)
  (axs : list (list PCAxis)) (i : nat) (clusterVec : list Cluster) (c : Cluster) :
  pfParticleHandle evt = Some pfParticles -> pcaxisHandle evt <> None ->
  clusterHandle evt <> None -> pfPartToPCAxisAssns evt = Some axs ->
  (i < length pfParticles)%nat -> (i < length axs)%nat -> nth i axs [] <> [] ->
  fm_at (clusterAssns evt) i = Some clusterVec -> In c clusterVec ->
  (clusterHitAssns evt = None
   \/ exists hs, clusterHitAssns evt = Some hs
      /\ (cluster_ID c < 0 \/ Z.of_nat (length hs) <= cluster_ID c)%Z) ->
  produce cfg evt = None.
Proof.
  intros Hpf Hpca Hcl Hax Hi Hia Hne Hc Hin Hbad.
  unfold produce; rewrite Hpf.
  destruct (pcaxisHandle evt); [|congruence].
  destruct (clusterHandle evt); [|congruence].
  apply (produce_loop_fail cfg evt i); [|apply in_seq; lia].
  intros out; unfold produce_one; rewrite Hax; cbn [fm_at].
  destruct (nth_error axs i) as [v|] eqn:Ev; [|apply nth_error_None in Ev; lia].
  rewrite (nth_error_nth _ _ _ Ev) in Hne.
  destruct v as [|a rest]; [congruence|].
  destruct (order_axes_cons a rest) as (b & bs & ->); cbn [hd_error].
  rewrite Hc.
  rewrite (map_option_None _ clusterVec c Hin); [reflexivity|].
  unfold fm_at_id; destruct Hbad as [-> | (hs & -> & Hb)].
  - destruct (Z.ltb (cluster_ID c) 0); reflexivity.
  - destruct (Z.ltb_spec (cluster_ID c) 0); [reflexivity|cbn [fm_at]].
    apply nth_error_None; lia.
Qed.

Lemma produce_bad_cluster_id_witness :
  produce cfg_example evt_bad_cluster = None.
Proof.
  apply (produce_bad_cluster_id cfg_example evt_bad_cluster [0%nat] [[axis_unit]] 0
           [mkCluster 7] (mkCluster 7)); try discriminate; try reflexivity.
  - simpl; lia.
  - simpl; lia.
  - left; reflexivity.
  - right; exists []; split; [reflexivity|simpl; lia].
Defined.

(** ** The output associations *)

Lemma map_combine_seq (T : list nat) :
  forall k, map snd (combine T (seq k (length T))) = seq k (length T)
            /\ map fst (combine T (seq k (length T))) = T.
Proof.
  induction T as [|i T IH]; intros k; simpl; [split; reflexivity|].
  destruct (IH (S k)) as [H1 H2]; rewrite H1, H2; split; reflexivity.
Qed.

(** The two output associations agree with the tag vector: the PFParticle
    association holds each tag index once, in order, each against a distinct
    PFParticle of the event that has an axis; every entry of the axis
    association points to an existing tag and holds an axis of the
    PFParticle that tag belongs to. *)
Theorem produce_assns_consistent (cfg : Config) (evt : Event) (out : Output)
  (pfParticles : list PFParticle) (axs : list (list PCAxis)) :
  produce cfg evt = Some out ->
  pfParticleHandle evt = Some pfParticles ->
  pfPartToPCAxisAssns evt = Some axs ->
  map snd (assnOutCosmicTagPFParticle out) = seq 0 (length (cosmicTagPFParticleVector out))
  /\ NoDup (map fst (assnOutCosmicTagPFParticle out))
  /\ (forall i k, In (i, k) (assnOutCosmicTagPFParticle out) ->
        (i < length pfParticles)%nat /\ nth i axs [] <> [])
  /\ (forall axis k, In (axis, k) (assnOutCosmicTagPCAxis out) ->
        (k < length (cosmicTagPFParticleVector out))%nat
        /\ exists i, In (i, k) (assnOutCosmicTagPFParticle out) /\ In axis (nth i axs [])).
Proof.
  intros Hrun Hpf Hax; unfold produce in Hrun; rewrite Hpf in Hrun.
  destruct (pcaxisHandle evt), (clusterHandle evt);
    try (injection Hrun as <-; simpl;
         split; [reflexivity|split; [constructor|split; intros ? ? []]]).
  destruct (produce_loop_spec cfg evt axs Hax _ _ _ Hrun) as (HL & HP & HA).
  simpl in HL, HP, HA; rewrite HL, HP, HA.
  set (T := filter (has_axis axs) (seq 0 (length pfParticles))).
  destruct (map_combine_seq T 0) as [Hs Hf].
  split; [exact Hs|].
  split; [rewrite Hf; apply NoDup_filter, seq_NoDup|].
  assert (HT : forall i k, In (i, k) (combine T (seq 0 (length T))) ->
             (i < length pfParticles)%nat /\ nth i axs [] <> [] /\ (k < length T)%nat).
  { intros i k Hik.
    pose proof (in_combine_l _ _ _ _ Hik) as Hi.
    pose proof (in_combine_r _ _ _ _ Hik) as Hk.
    apply filter_In in Hi as [Hi Hh]; apply in_seq in Hi; apply in_seq in Hk.
    unfold has_axis in Hh; destruct (nth i axs []); [discriminate|].
    split; [lia|split; [discriminate|lia]]. }
  split; [intros i k Hik; destruct (HT i k Hik) as (H1 & H2 & _); split; assumption|].
  intros axis k Hin; unfold axis_assns_of in Hin.
  apply in_flat_map in Hin as ([i k'] & Hik & Hin).
  apply in_map_iff in Hin as (axis' & Heq & Hin); injection Heq as -> ->.
  destruct (HT i k Hik) as (_ & _ & Hk).
  split; [lia|].
  exists i; split; [exact Hik|].
  exact (Permutation_in _ (order_axes_perm _) Hin).
Qed.

Lemma produce_assns_consistent_witness :
  exists out, produce cfg_example evt_two = Some out
    /\ map snd (assnOutCosmicTagPFParticle out) = seq 0 (length (cosmicTagPFParticleVector out))
    /\ NoDup (map fst (assnOutCosmicTagPFParticle out)).
Proof.
  destruct (produce cfg_example evt_two) as [out|] eqn:E.
  - exists out; split; [reflexivity|].
    destruct (produce_assns_consistent cfg_example evt_two out [0%nat; 1%nat]
                [[ax5; ax3]; []] E eq_refl eq_refl) as (H1 & H2 & _).
    split; assumption.
  - vm_compute in E; discriminate E.
Defined.

(** One step of the loop that tags a PFParticle reads its first ordered axis,
    its clusters' hits and its space points, and classifies exactly these. *)
Lemma produce_one_lookup (cfg : Config) (evt : Event) (out out' : Output) (i : nat)
  (axs : list (list PCAxis)) :
  pfPartToPCAxisAssns evt = Some axs ->
  produce_one cfg evt out i = Some out' ->
  (nth i axs [] = [] /\ out' = out)
  \/ exists pcAxis clusterVec hitVecs spacePointVec,
       select_axis (nth i axs []) = Some pcAxis
       /\ fm_at (clusterAssns evt) i = Some clusterVec
       /\ map_option (fun c => fm_at_id (clusterHitAssns evt) (cluster_ID c)) clusterVec
          = Some hitVecs
       /\ fm_at (spacePointAssnVec evt) i = Some spacePointVec
       /\ out' = mkOutput
                   (cosmicTagPFParticleVector out
                      ++ [make_tag (classify cfg pcAxis hitVecs spacePointVec)])
                   (assnOutCosmicTagPFParticle out
                      ++ [(i, length (cosmicTagPFParticleVector out))])
                   (assnOutCosmicTagPCAxis out
                      ++ map (fun axis => (axis, length (cosmicTagPFParticleVector out)))
                             (order_axes (nth i axs []))).
Proof.
  intros Hax Hrun; unfold produce_one in Hrun; rewrite Hax in Hrun; cbn [fm_at] in Hrun.
  destruct (nth_error axs i) as [v|] eqn:Ev; [|discriminate].
  rewrite (nth_error_nth _ _ _ Ev).
  destruct v as [|a rest]; [left; split; [reflexivity|injection Hrun as <-; reflexivity]|].
  right; unfold select_axis.
  destruct (order_axes_cons a rest) as (pcAxis & bs & Hord).
  rewrite Hord in Hrun |- *; cbn [hd_error] in Hrun |- *.
  destruct (fm_at (clusterAssns evt) i) as [cv|] eqn:Ecv; [|discriminate].
  destruct (map_option _ _) as [hitVecs|] eqn:Ehv; [|discriminate].
  destruct (fm_at (spacePointAssnVec evt) i) as [sps|] eqn:Esp; [|discriminate].
  injection Hrun as <-.
  exists pcAxis, cv, hitVecs, sps; repeat split; assumption.
Qed.

(** Each tag is the classification of the PFParticle it is associated with:
    the entry [(i, k)] of the PFParticle association means that tag [k] is
    built from the first ordered axis of PFParticle [i], the hits of its
    clusters and its space points. *)
Theorem produce_tag_of_object (cfg : Config) (evt : Event) (out : Output)
  (axs : list (list PCAxis)) :
  produce cfg evt = Some out ->
  pfPartToPCAxisAssns evt = Some axs ->
  forall i k, In (i, k) (assnOutCosmicTagPFParticle out) ->
  exists pcAxis clusterVec hitVecs spacePointVec,
    select_axis (nth i axs []) = Some pcAxis
    /\ fm_at (clusterAssns evt) i = Some clusterVec
    /\ map_option (fun c => fm_at_id (clusterHitAssns evt) (cluster_ID c)) clusterVec
       = Some hitVecs
    /\ fm_at (spacePointAssnVec evt) i = Some spacePointVec
    /\ nth_error (cosmicTagPFParticleVector out) k
       = Some (make_tag (classify cfg pcAxis hitVecs spacePointVec)).
Proof.
  intros Hrun Hax.
  refine (proj2 (produce_ind cfg evt (fun o =>
    (forall i k, In (i, k) (assnOutCosmicTagPFParticle o) -> (k < length (cosmicTagPFParticleVector o))%nat)
    /\ forall i k, In (i, k) (assnOutCosmicTagPFParticle o) ->
       exists pcAxis clusterVec hitVecs spacePointVec,
         select_axis (nth i axs []) = Some pcAxis
         /\ fm_at (clusterAssns evt) i = Some clusterVec
         /\ map_option (fun c => fm_at_id (clusterHitAssns evt) (cluster_ID c)) clusterVec
            = Some hitVecs
         /\ fm_at (spacePointAssnVec evt) i = Some spacePointVec
         /\ nth_error (cosmicTagPFParticleVector o) k
            = Some (make_tag (classify cfg pcAxis hitVecs spacePointVec))) _ _ out Hrun)).
  - split; intros i k [].
  - intros o j o' [Hbound Ho] Hstep.
    destruct (produce_one_lookup cfg evt o o' j axs Hax Hstep)
      as [[_ ->]|(pcAxis & cv & hv & sps & Hsel & Hcv & Hhv & Hsp & ->)];
      [split; assumption|].
    cbn [assnOutCosmicTagPFParticle cosmicTagPFParticleVector].
    split.
    + intros i k Hik; apply in_app_or in Hik as [Hik|[Hik|[]]];
        rewrite length_app; simpl.
      * pose proof (Hbound i k Hik); lia.
      * injection Hik as -> <-; lia.
    + intros i k Hik; apply in_app_or in Hik as [Hik|[Hik|[]]].
      * destruct (Ho i k Hik) as (a & c & h & s & H1 & H2 & H3 & H4 & H5).
        exists a, c, h, s; repeat split; try assumption.
        rewrite nth_error_app1; [exact H5|exact (Hbound i k Hik)].
      * injection Hik as -> <-.
        exists pcAxis, cv, hv, sps; repeat split; try assumption.
        rewrite nth_error_app2, Nat.sub_diag; reflexivity.
Qed.

Lemma produce_tag_of_object_witness :
  exists out, produce cfg_example evt_two = Some out
    /\ exists pcAxis clusterVec hitVecs spacePointVec,
         select_axis (nth 0 [[ax5; ax3]; []] []) = Some pcAxis
         /\ fm_at (clusterAssns evt_two) 0 = Some clusterVec
         /\ map_option (fun c => fm_at_id (clusterHitAssns evt_two) (cluster_ID c)) clusterVec
            = Some hitVecs
         /\ fm_at (spacePointAssnVec evt_two) 0 = Some spacePointVec
         /\ nth_error (cosmicTagPFParticleVector out) 0
            = Some (make_tag (classify cfg_example pcAxis hitVecs spacePointVec)).
Proof.
  destruct (produce cfg_example evt_two) as [out|] eqn:E.
  - exists out; split; [reflexivity|].
    apply (produce_tag_of_object cfg_example evt_two out [[ax5; ax3]; []] E eq_refl 0 0).
    vm_compute in E; injection E as <-; simpl; left; reflexivity.
  - vm_compute in E; discriminate E.
Defined.
